(** * StuKon exercise notebooks: a shallow embedding and its properties

    The repository is a set of teaching notebooks (tensor indexing, a
    data-driven regressor, a physics-informed regressor with a fixed
    parameter, and a parameterized PINN).  The notebooks are linear
    scripts over tensors; this development embeds the tensor programs
    they contain:

    - real-valued formulas ([torch.exp], [torch.log], [math.sqrt]) are
      embedded over [R]: float32 tensors are idealised as reals;
    - purely rational computations ([torch.linspace], [t**2],
      [MSELoss], [torch.abs], [torch.max], division) are embedded over
      [Q] so that they evaluate;
    - tensors are nested lists, indexed as Python does (negative
      indices wrap once, anything else out of range is an [IndexError]);
    - loops are folds over [range(n)] in an error monad ([result]);
    - the blanks the notebooks leave for the student ([...]) are section
      variables: every statement holds for whatever fills them. *)

From Stdlib Require Import Reals Psatz QArith Qabs Qminmax ZArith List.
From Stdlib Require String Ascii.
From stdpp Require Import base list option.

(** ** Part I: the embedding *)

(** *** Constants of the data-driven and physics-informed notebooks *)

Module Params.
(** [t_min, t_max = 0.0, 3.0] *)
Definition t_min : Q := 0.0.
Definition t_max : Q := 3.0.
(** [D_min, D_max = 0.01, 1.0] (data-driven notebook) *)
Definition D_min : Q := 0.01.
Definition D_max : Q := 1.0.
(** [D = 0.02] (physics-informed notebook) *)
Definition D : Q := 0.02.
(** [g, H = 9.81, 50.0] *)
Definition g : Q := 9.81.
Definition H : Q := 50.0.
(** [N_D_train, N_t_train = 500, 50] and [N_D_test, N_t_test = 25, 50] *)
Definition N_D_train : nat := 500.
Definition N_t_train : nat := 50.
Definition N_D_test : nat := 25.
Definition N_t_test : nat := 50.
(** [N_t = 50] (physics-informed notebook) *)
Definition N_t : nat := 50.
(** [train_iterations = 5000] in both hand-written loops *)
Definition train_iterations : nat := 5000.
End Params.

(** *** Closed-form reference functions (over the reals) *)

Section ClosedForm.
Local Open Scope R_scope.
Variables D g H : R.

(** [sqrt_term = math.sqrt(D * g)] *)
Definition sqrt_term : R := sqrt (D * g).

(** The accuracy check of the physics-informed notebook:
    [real_out = H - 1/D * (torch.log((1 + torch.exp(-2*sqrt_term*t_plot))/2.0)
                           + sqrt_term*t_plot)] *)
Definition real_out (t_plot : R) : R :=
  H - 1 / D * (ln ((1 + exp (-2 * sqrt_term * t_plot)) / 2) + sqrt_term * t_plot).

(** The closed form as the specification (and the markdown of both
    notebooks) writes it:
    [u(t; D) = (1/D)(ln((1+e^(-2*sqrt(D*g)*t))/2) - sqrt(D*g)*t) + H] *)
Definition u_closed_form (t : R) : R :=
  1 / D * (ln ((1 + exp (-2 * sqrt (D * g) * t)) / 2) - sqrt (D * g) * t) + H.

(** The argument of the logarithm, shared by both expressions. *)
Definition log_arg (t : R) : R := (1 + exp (-2 * sqrt (D * g) * t)) / 2.

(** First derivative of [real_out], in closed form (the velocity). *)
Definition real_out_t (t : R) : R :=
  - (sqrt_term / D) * ((1 - exp (-2 * sqrt_term * t)) / (1 + exp (-2 * sqrt_term * t))).

(** Right-hand side of the governing equation [u_tt = D*(u_t)^2 - g]. *)
Definition ode_rhs (u_t : R) : R := D * (u_t * u_t) - g.
End ClosedForm.

(** The constants of the notebooks as reals. *)
Definition D_R : R := Q2R Params.D.
Definition g_R : R := Q2R Params.g.
Definition H_R : R := Q2R Params.H.

(** *** Exceptions

    Every failure of the notebooks is an exception of the tensor library
    that propagates to the cell output; nothing catches one. *)

Inductive exn : Type :=
| IndexError      (* index out of range for a dimension *)
| RuntimeError.   (* shape mismatch, reduction of an empty tensor *)

Inductive result (A : Type) : Type :=
| Ok (a : A)
| Raise (e : exn).
Arguments Ok {A} a.
Arguments Raise {A} e.

Definition bind {A B : Type} (r : result A) (k : A -> result B) : result B :=
  match r with
  | Ok a => k a
  | Raise e => Raise e
  end.

#[global] Instance result_ret : MRet result := fun A a => Ok a.
#[global] Instance result_bind : MBind result := fun A B k r => bind r k.

(** *** Tensors as nested lists *)

Abbreviation tensor1 A := (list A) (only parsing).
Abbreviation tensor2 A := (list (list A)) (only parsing).
Abbreviation tensor3 A := (list (list (list A))) (only parsing).

(** [T.shape == (n, m, k)] for a rank-3 tensor. *)
Definition has_shape3 {A : Type} (n m k : nat) (T : tensor3 A) : Prop :=
  length T = n /\
  Forall (fun M => length M = m /\ Forall (fun v => length v = k) M) T.

(** [torch.zeros((n, m, k))] *)
Definition zeros3 (n m k : nat) : tensor3 Q :=
  replicate n (replicate m (replicate k 0%Q)).

(** [torch.linspace(start, stop, steps)]: [steps] equidistant points, both
    ends included.  With a single step the only point is [start]. *)
Definition linspace (start stop : Q) (steps : nat) : tensor1 Q :=
  map (fun i : nat =>
         (start + inject_Z (Z.of_nat i) * ((stop - start) / inject_Z (Z.of_nat (steps - 1))))%Q)
      (seq 0 steps).

(** An integer index into a dimension of size [len], as Python and torch
    read it: [0 <= i < len] is position [i], [-len <= i < 0] is position
    [len + i], everything else raises [IndexError]. *)
Definition normalize_index (len : nat) (i : Z) : result nat :=
  if ((0 <=? i) && (i <? Z.of_nat len))%Z then Ok (Z.to_nat i)
  else if ((- Z.of_nat len <=? i) && (i <? 0))%Z then Ok (Z.to_nat (Z.of_nat len + i))
  else Raise IndexError.

(** [l[i]] *)
Definition getitem {A : Type} (l : list A) (i : Z) : result A :=
  p ← normalize_index (length l) i;
  match l !! p with
  | Some a => Ok a
  | None => Raise IndexError
  end.

(** [T[i, j, k]] on a rank-3 tensor *)
Definition getitem3 {A : Type} (T : tensor3 A) (i j k : Z) : result A :=
  M ← getitem T i;
  v ← getitem M j;
  getitem v k.

(** [T[i, j, k] = x]: the tensor is updated in place; here the updated
    tensor is returned. *)
Definition setitem3 {A : Type} (T : tensor3 A) (i j k : Z) (x : A) : result (tensor3 A) :=
  pi ← normalize_index (length T) i;
  M ← getitem T i;
  pj ← normalize_index (length M) j;
  v ← getitem M j;
  pk ← normalize_index (length v) k;
  Ok (<[pi := <[pj := <[pk := x]> v]> M]> T).

(** The indexing cell of the tensor primer:
    [test_tensor = torch.zeros((3, 2, 2))], then
    [test_tensor[0, 0, 0] = 1.0], [test_tensor[0, 0, 1] = 2.0],
    [test_tensor[2, 1, 0] = 5.0]. *)
Definition test_tensor : tensor3 Q := zeros3 3 2 2.

Definition test_tensor_after_writes : result (tensor3 Q) :=
  T1 ← setitem3 test_tensor 0 0 0 1.0%Q;
  T2 ← setitem3 T1 0 0 1 2.0%Q;
  setitem3 T2 2 1 0 5.0%Q.

(** *** Reverse-mode differentiation of the toy example

    The cell [u = t**2; u_sum = sum(u); u_t = torch.autograd.grad(u_sum, t)]
    builds a graph over the leaf [t] and walks it backwards.  The graph
    language below has the operations the cell uses (power, product with
    a number, Python's [sum], which iterates over the tensor and adds
    its entries to the integer 0) and the two elementwise binary
    operations. *)

Inductive texpr : Type :=
| TLeaf                        (* the tensor [t], [requires_grad=True] *)
| TConst (c : tensor1 Q)       (* a tensor that does not depend on [t] *)
| TPow (e : texpr) (n : nat)   (* [e ** n] *)
| TScale (c : Q) (e : texpr)   (* [c * e] *)
| TAdd (a b : texpr)           (* [a + b] *)
| TMul (a b : texpr).          (* [a * b] *)

Inductive sexpr : Type :=
| SConst (c : Q)                 (* a Python number *)
| SSelect (i : nat) (e : texpr)  (* [e[i]] *)
| SAdd (a b : sexpr).            (* [a + b] on zero-dimensional tensors *)

Fixpoint eval_t (t : tensor1 Q) (e : texpr) : tensor1 Q :=
  match e with
  | TLeaf => t
  | TConst c => c
  | TPow e n => map (fun x => Qpower x (Z.of_nat n)) (eval_t t e)
  | TScale c e => map (Qmult c) (eval_t t e)
  | TAdd a b => zip_with Qplus (eval_t t a) (eval_t t b)
  | TMul a b => zip_with Qmult (eval_t t a) (eval_t t b)
  end.

Fixpoint eval_s (t : tensor1 Q) (e : sexpr) : Q :=
  match e with
  | SConst c => c
  | SSelect i e => nth i (eval_t t e) 0%Q
  | SAdd a b => (eval_s t a + eval_s t b)%Q
  end.

(** Backward pass through a tensor node: [gr] is the gradient that
    arrives at the node, the result is what it contributes to [t.grad]. *)
Fixpoint backward_t (t : tensor1 Q) (e : texpr) (gr : tensor1 Q) : tensor1 Q :=
  match e with
  | TLeaf => gr
  | TConst _ => replicate (length t) 0%Q
  | TPow e n =>
      backward_t t e
        (zip_with (fun g x => (g * (inject_Z (Z.of_nat n) * Qpower x (Z.of_nat n - 1)))%Q)
                  gr (eval_t t e))
  | TScale c e => backward_t t e (map (Qmult c) gr)
  | TAdd a b => zip_with Qplus (backward_t t a gr) (backward_t t b gr)
  | TMul a b =>
      zip_with Qplus (backward_t t a (zip_with Qmult gr (eval_t t b)))
                     (backward_t t b (zip_with Qmult gr (eval_t t a)))
  end.

(** Backward pass through a scalar node; selecting entry [i] sends the
    gradient to position [i] of a zero tensor. *)
Fixpoint backward_s (t : tensor1 Q) (e : sexpr) (g : Q) : tensor1 Q :=
  match e with
  | SConst _ => replicate (length t) 0%Q
  | SSelect i e => backward_t t e (<[i := g]> (replicate (length (eval_t t e)) 0%Q))
  | SAdd a b => zip_with Qplus (backward_s t a g) (backward_s t b g)
  end.

(** Python's [sum(u)] over a tensor with [len] entries:
    [((0 + u[0]) + u[1]) + ...]. *)
Definition py_sum (len : nat) (u : texpr) : sexpr :=
  fold_left (fun acc i => SAdd acc (SSelect i u)) (seq 0 len) (SConst 0).

(** [torch.autograd.grad(out, t)]: a tuple with one gradient per input;
    the output is a scalar, so the backward pass starts from 1.  The
    model covers an output that carries a graph over [t].  Python's [sum]
    over an empty tensor is the integer 0, which carries none: the library
    call fails there, and the model has no such case. *)
Definition autograd_grad (out : sexpr) (t : tensor1 Q) : list (tensor1 Q) :=
  [backward_s t out 1%Q].

(** The cell of the physics-informed notebook. *)
Definition toy_t : tensor1 Q := linspace 0 10 11.
Definition toy_u : texpr := TPow TLeaf 2.
Definition toy_u_sum : sexpr := py_sum (length (eval_t toy_t toy_u)) toy_u.
Definition toy_u_t : list (tensor1 Q) := autograd_grad toy_u_sum toy_t.
(** [2*t], the analytical derivative the cell prints next to it *)
Definition toy_analytical : tensor1 Q := eval_t toy_t (TScale 2 TLeaf).

(** Elementwise agreement within an absolute tolerance; tensors of
    different lengths do not agree. *)
Definition allclose (atol : Q) (a b : tensor1 Q) : bool :=
  (length a =? length b)%nat
  && forallb (fun p => Qle_bool (Qabs (fst p - snd p)) atol) (zip a b).

(** *** Feed-forward networks

    A network is the list of building blocks given to
    [torch.nn.Sequential]. *)

Inductive layer : Type :=
| Linear (in_features out_features : nat)   (* [torch.nn.Linear(in, out)] *)
| Tanh                                      (* [torch.nn.Tanh()] *)
| ReLU.                                     (* [torch.nn.ReLU()] *)

#[global] Instance layer_eq_dec : EqDecision layer.
Proof. solve_decision. Defined.

(** Physics-informed notebook:
    [model = torch.nn.Sequential(torch.nn.Linear(1, 20), torch.nn.Tanh(),
                                 torch.nn.Linear(20, 20), torch.nn.Tanh(),
                                 torch.nn.Linear(20, 1))] *)
Definition model_physics : list layer :=
  [Linear 1 20; Tanh; Linear 20 20; Tanh; Linear 20 1].

(** Modelled from the spec: the data-driven notebook leaves its network
    blank ([model = ...]); the exercise text above the cell asks for
    "2 input neurons for the values of t, D and 1 output neuron for u, two
    hidden layers of size 20 and Tanh-activation in between". *)
Definition model_data_driven : list layer :=
  [Linear 2 20; Tanh; Linear 20 20; Tanh; Linear 20 1].

(** The fully connected network of the PINN library: a linear layer and
    the activation per hidden width, then a linear output layer. *)
Fixpoint FCN (input_dim : nat) (hidden : list nat) (output_dim : nat) : list layer :=
  match hidden with
  | [] => [Linear input_dim output_dim]
  | h :: hidden' => Linear input_dim h :: Tanh :: FCN h hidden' output_dim
  end.

(** Parameterized notebook: [tp.models.FCN(input_space=X*K, output_space=U)]
    with [X], [K] and [U] one-dimensional.  The widths of the hidden layers
    are the library's default, three layers of 20; the cell output of the
    training ("921 Trainable params") is checked against it below. *)
Definition model_param : list layer := FCN 2 [20; 20; 20] 1.

(** The trainable parameters the trainer reports for [model_param]. *)
Definition reported_trainable_params : nat := 921.

(** The regressors of the three notebooks. *)
Definition regressors : list (list layer) :=
  [model_data_driven; model_physics; model_param].

(** Weights and biases of the linear layers. *)
Fixpoint param_count (m : list layer) : nat :=
  match m with
  | [] => 0
  | Linear i o :: m' => i * o + o + param_count m'
  | _ :: m' => param_count m'
  end.

(** The size of the last axis as it flows through the network; a linear
    layer fed a different number of features raises [RuntimeError]. *)
Fixpoint forward_shape (m : list layer) (features : nat) : result nat :=
  match m with
  | [] => Ok features
  | Linear i o :: m' =>
      if (features =? i)%nat then forward_shape m' o else Raise RuntimeError
  | _ :: m' => forward_shape m' features
  end.

(** The linear layers of a network, in order. *)
Definition linear_layers (m : list layer) : list (nat * nat) :=
  omap (fun l => match l with Linear i o => Some (i, o) | _ => None end) m.

(** Number of features the first linear layer expects. *)
Definition input_dim (m : list layer) : option nat :=
  fst <$> head (linear_layers m).

(** Widths of the hidden layers: the outputs of all linear layers but the
    last. *)
Definition hidden_widths (m : list layer) : list nat :=
  let ls := linear_layers m in map snd (take (length ls - 1) ls).

(** The block that ends the network. *)
Definition output_layer (m : list layer) : option layer := m !! (length m - 1)%nat.

(** Every linear layer but the last is followed by [Tanh]. *)
Fixpoint tanh_between (m : list layer) : bool :=
  match m with
  | [] => false
  | [Linear _ _] => true
  | Linear _ _ :: Tanh :: m' => tanh_between m'
  | _ => false
  end.

(** The architecture section 4.2 of the specification describes: two
    hidden layers of one width, Tanh after each, a linear output. *)
Definition two_hidden_tanh (d_in width d_out : nat) : list layer :=
  [Linear d_in width; Tanh; Linear width width; Tanh; Linear width d_out].

(** The architecture as a property: 2 input features, 1 output feature,
    exactly two hidden layers of width 20, Tanh between the linear layers
    and a linear layer at the end. *)
Definition maps_2_to_1_two_hidden_20 (m : list layer) : Prop :=
  input_dim m = Some 2
  /\ forward_shape m 2 = Ok 1
  /\ hidden_widths m = [20; 20]
  /\ tanh_between m = true
  /\ exists i, output_layer m = Some (Linear i 1).

(** What the regressors of the notebooks share: some number of input
    features, 1 output feature, hidden layers of width 20 only, Tanh
    between the linear layers and a linear layer at the end. *)
Definition tanh_regressor_width_20 (m : list layer) : Prop :=
  (exists d, input_dim m = Some d /\ forward_shape m d = Ok 1)
  /\ Forall (fun w => w = 20) (hidden_widths m)
  /\ tanh_between m = true
  /\ exists i, output_layer m = Some (Linear i 1).

(** *** Loss functions and training loops *)

Definition Qsum (l : list Q) : Q := fold_right Qplus 0%Q l.

(** [torch.nn.MSELoss()(input, target)] with the default reduction: the
    mean of the squared differences.  An operand with a single entry is
    broadcast to the size of the other one; tensors of two other sizes
    raise.  The mean of no entries is zero divided by zero, for which the
    library returns [nan]: the rationals have no such value (the quotient
    below is 0 there), and the statements about the loss are made for
    non-empty tensors. *)
Definition MSELoss (input target : tensor1 Q) : result Q :=
  if (length input =? length target)%nat
  then Ok (Qsum (zip_with (fun x y => (x - y) * (x - y)) input target)
           / inject_Z (Z.of_nat (length input)))%Q
  else match input, target with
       | [x], _ =>
           Ok (Qsum (zip_with (fun x y => (x - y) * (x - y))
                              (replicate (length target) x) target)
               / inject_Z (Z.of_nat (length target)))%Q
       | _, [y] =>
           Ok (Qsum (zip_with (fun x y => (x - y) * (x - y))
                              input (replicate (length input) y))
               / inject_Z (Z.of_nat (length input)))%Q
       | _, _ => Raise RuntimeError
       end.

(** [for k in ks: s = body(k, s)]; an exception ends the loop at once. *)
Fixpoint for_each {St : Type} (body : nat -> St -> result St) (ks : list nat) (s : St)
  : result St :=
  match ks with
  | [] => Ok s
  | k :: ks' => s' ← body k s; for_each body ks' s'
  end.

(** [for k in range(n)] *)
Definition for_range {St : Type} (n : nat) (body : nat -> St -> result St) (s : St)
  : result St :=
  for_each body (seq 0 n) s.

(** What a training loop changes: the network parameters (with the state
    of the optimizer), the lines printed so far, and the number of
    optimization steps taken. *)
Record train_state (P : Type) : Type := TrainState {
  theta : P;
  printed : list (nat * Q);
  iterations : nat
}.
Arguments TrainState {P} _ _ _.
Arguments theta {P} _.
Arguments printed {P} _.
Arguments iterations {P} _.

(** What the physics-informed loop obtains from the network by automatic
    differentiation in one iteration. *)
Record derivatives : Type := Derivatives {
  u_tt : tensor1 Q;       (* second time-derivative on the time grid *)
  u_t : tensor1 Q;        (* first time-derivative on the time grid *)
  u_zero : tensor1 Q;     (* network output at [t_zero] *)
  u_t_zero : tensor1 Q    (* first time-derivative at [t_zero] *)
}.

Section TrainingLoops.
Variable P : Type.

(** The blanks of the data-driven loop: [model_out = ...], [loss = ...]
    and the optimization step. *)
Variable forward : P -> result (tensor1 Q).
Variable loss_of : tensor1 Q -> result Q.
(** The optimization step (also [optimizer.zero_grad()],
    [total_loss.backward()], [optimizer.step()] of the physics-informed
    loop). *)
Variable optimize : P -> result P.
(** The blanks of the physics-informed loop: [u = ...], [u_t = ...],
    [u_zero = ...] and the derivatives taken from them. *)
Variable differentiate : P -> result derivatives.

(** Data-driven notebook:
    [for t in range(train_iterations):
         model_out = ...; loss = ...; (optimization step)
         if t == 0 or t % 250 == 249: print(t, train_iterations, loss.item())] *)
Definition data_driven_body (t : nat) (s : train_state P) : result (train_state P) :=
  model_out ← forward (theta s);
  loss ← loss_of model_out;
  theta' ← optimize (theta s);
  Ok (TrainState theta'
        (if (t =? 0)%nat || (t mod 250 =? 249)%nat
         then printed s ++ [(t, loss)] else printed s)
        (S (iterations s))).

Definition data_driven_loop (s : train_state P) : result (train_state P) :=
  for_range Params.train_iterations data_driven_body s.

(** The defect of the governing equation at one time point, for the
    second derivative [a] and the first derivative [v] of the network:
    [u_tt - (D*(u_t)^2 - g)]. *)
Definition ode_residual (a v : Q) : Q := (a - (Params.D * (v * v) - Params.g))%Q.

(** Modelled from the spec: the arguments of the three loss calls are
    blank in the notebook ([loss_fn_ode(..., ...)] and so on); they are
    filled in as the comments of the loop ([u_tt = D*(u_t)^2 - g],
    [u(0) = H], [u_t(0) = 0]) and section 4.4 of the specification state
    them. *)
Definition loss_ode (d : derivatives) : result Q :=
  MSELoss (u_tt d) (map (fun v => Params.D * (v * v) - Params.g)%Q (u_t d)).

Definition loss_initial_position (d : derivatives) : result Q :=
  MSELoss (u_zero d) [Params.H].

Definition loss_initial_speed (d : derivatives) : result Q :=
  MSELoss (u_t_zero d) [0%Q].

(** [total_loss = loss_ode + loss_initial_position + loss_initial_speed] *)
Definition total_loss (d : derivatives) : result Q :=
  l_ode ← loss_ode d;
  l_pos ← loss_initial_position d;
  l_speed ← loss_initial_speed d;
  Ok (l_ode + l_pos + l_speed)%Q.

(** Physics-informed notebook:
    [for k in range(train_iterations):
         (the three losses); total_loss = ...
         if k % 250 == 0 or k == train_iterations - 1: print(k, ..., total_loss.item())
         optimizer.zero_grad(); total_loss.backward(); optimizer.step()] *)
Definition physics_body (k : nat) (s : train_state P) : result (train_state P) :=
  d ← differentiate (theta s);
  loss ← total_loss d;
  theta' ← optimize (theta s);
  Ok (TrainState theta'
        (if (k mod 250 =? 0)%nat || (k =? Params.train_iterations - 1)%nat
         then printed s ++ [(k, loss)] else printed s)
        (S (iterations s))).

Definition physics_loop (s : train_state P) : result (train_state P) :=
  for_range Params.train_iterations physics_body s.

(** Modelled from the spec: [pl.Trainer(max_steps=8000, ...).fit(solver)]
    is a library call; section 4.5 of the specification has it run a
    fixed number of optimization steps.  [training_step] is one step of
    the solver on its two conditions. *)
Variable training_step : P -> result P.


End TrainingLoops.

(** *** The dataset of the data-driven notebook

    Modelled from the spec: the cell that builds [input_training],
    [output_training], [input_testing] and [output_testing] is blank in
    the notebook.  The construction follows the exercise text above the
    cell and section 4.1 of the specification: the values of [D] come
    from [torch.rand] (scaled to [[D_min, D_max]]), are repeated with
    [repeat_interleave] and reshaped to [(N_D, N_t)]; the time values are
    one [torch.linspace] grid shared by all rows; [input[i, k]] is the
    pair [(D_i, t_k)] and [output[i, k]] is [u(t_k; D_i)].  The outcome
    of [torch.rand] is an argument: a tensor of numbers in [[0, 1)]. *)

Section Dataset.
Context {A : Type}.

(** [l.repeat_interleave(n)]: every entry [n] times, in order. *)
Definition repeat_interleave (l : list A) (n : nat) : list A := concat (map (replicate n) l).

(** [count] consecutive rows of length [m]. *)
Fixpoint chunks (m count : nat) (flat : list A) : list (list A) :=
  match count with
  | O => []
  | S count' => take m flat :: chunks m count' (drop m flat)
  end.

(** [flat.reshape(n, m)]; the numbers of entries must agree. *)
Definition reshape2 (flat : list A) (n m : nat) : result (tensor2 A) :=
  if (length flat =? n * m)%nat then Ok (chunks m n flat) else Raise RuntimeError.

(** [T[i, k]] for an index inside the tensor, as an option. *)
Definition lookup2 (T : tensor2 A) (i k : nat) : option A :=
  row ← T !! i; row !! k.

(** [M[:, c]]: entry [c] of every row. *)
Definition select_last (M : tensor2 A) (c : nat) : option (list A) :=
  mapM (fun p => p !! c) M.
End Dataset.

Definition create_dataset (u : R -> R -> R) (D_values t_grid : list R)
  : result (tensor3 R * tensor3 R) :=
  D_mat ← reshape2 (repeat_interleave D_values (length t_grid))
                   (length D_values) (length t_grid);
  let input := map (fun row => zip_with (fun d t => [d; t]) row t_grid) D_mat in
  let output := map (map (fun p => match p with
                                   | [d; t] => [u t d]
                                   | _ => []
                                   end)) input in
  Ok (input, output).

(** [D_min + (D_max - D_min) * torch.rand(N_D_train)] *)
Definition training_D_values (draws : list R) : list R :=
  map (fun r => (Q2R Params.D_min + (Q2R Params.D_max - Q2R Params.D_min) * r)%R) draws.

(** [torch.linspace(t_min, t_max, N_t_train)] *)
Definition training_t_grid : list R :=
  map Q2R (linspace Params.t_min Params.t_max Params.N_t_train).

Definition training_dataset (draws : list R) : result (tensor3 R * tensor3 R) :=
  create_dataset (fun t D => u_closed_form D g_R H_R t)
                 (training_D_values draws) training_t_grid.

(** A sample outcome of [torch.rand(N_D_train)]. *)
Definition sample_draws : list R := replicate Params.N_D_train (1 / 2)%R.

(** *** Accuracy checks *)

(** [T[i, j, l]] for an index inside the tensor, as an option. *)
Definition lookup3 {A : Type} (T : tensor3 A) (i j l : nat) : option A :=
  M ← T !! i; v ← M !! j; v !! l.

(** All entries of a rank-3 tensor, in storage order. *)
Definition flatten3 {A : Type} (T : tensor3 A) : list A := concat (concat T).

(** Same length on every axis, entry by entry. *)
Definition same_shape3 {A B : Type} (a : tensor3 A) (b : tensor3 B) : bool :=
  (length a =? length b)%nat
  && forallb (fun p => (length (fst p) =? length (snd p))%nat
                       && forallb (fun q => (length (fst q) =? length (snd q))%nat)
                                  (zip (fst p) (snd p)))
             (zip a b).

(** An elementwise binary operation on two tensors of the same shape. *)
Definition elementwise3 {A B C : Type} (f : A -> B -> C) (a : tensor3 A) (b : tensor3 B)
  : result (tensor3 C) :=
  if same_shape3 a b then Ok (zip_with (zip_with (zip_with f)) a b)
  else Raise RuntimeError.

(** [torch.max(T)] over all the entries; an empty tensor raises. *)
Definition torch_max (l : list Q) : result Q :=
  match l with
  | [] => Raise RuntimeError
  | x :: l' => Ok (fold_left Qmax l' x)
  end.

(** Data-driven notebook:
    [error = torch.abs(model_out - output_testing)] and the printed
    [torch.max(error) / torch.max(output_testing)].  The division is the
    one of [Q]; a zero maximum of the targets is outside the model. *)
Definition abs_error (model_out output_testing : tensor3 Q) : result (tensor3 Q) :=
  elementwise3 (fun x y => Qabs (x - y)) model_out output_testing.

Definition relative_error (model_out output_testing : tensor3 Q) : result Q :=
  error ← abs_error model_out output_testing;
  e_max ← torch_max (flatten3 error);
  o_max ← torch_max (flatten3 output_testing);
  Ok (e_max / o_max)%Q.

(** For comparison only, not in the notebook: the largest of the errors
    taken relative to the magnitude of their own target. *)
Definition per_point_relative_error (model_out output_testing : tensor3 Q) : result Q :=
  rel ← elementwise3 (fun x y => Qabs (x - y) / Qabs y)%Q model_out output_testing;
  torch_max (flatten3 rel).

(** [torch.max] over real entries. *)
Definition torch_max_R (l : list R) : result R :=
  match l with
  | [] => Raise RuntimeError
  | x :: l' => Ok (fold_left Rmax l' x)
  end.

(** [l[i] = x] on a rank-1 tensor *)
Definition setitem {A : Type} (l : list A) (i : Z) (x : A) : result (list A) :=
  p ← normalize_index (length l) i;
  Ok (<[p := x]> l).

Section ParamEvaluation.
(** The trained network of the parameterized notebook, as a function of
    the point [x] and the parameter [k]. *)
Variable model : R -> R -> R.
(** [inp_data[:, 'x']] of the plot sampler built in iteration [i]
    ([n_points=100] over [I_x]). *)
Variable plot_points : nat -> list R.

(** [k_tensor = torch.linspace(0, 2.0, 50)] *)
Definition k_tensor : tensor1 Q := linspace 0 2.0 50.

(** [torch.max(torch.abs(out - torch.exp(k_tensor[i]*inp_data[:, 'x'].as_tensor)))] *)
Definition max_error (i : nat) : result R :=
  k ← getitem (map Q2R k_tensor) (Z.of_nat i);
  torch_max_R (map (fun x => Rabs (model x k - exp (k * x))) (plot_points i)).

(** [error_tensor = torch.zeros_like(k_tensor)
     for i in range(len(k_tensor)): ...; error_tensor[i] = torch.max(...)] *)
Definition error_tensor : result (tensor1 R) :=
  for_range (length k_tensor)
    (fun i error_tensor => e ← max_error i; setitem error_tensor (Z.of_nat i) e)
    (replicate (length k_tensor) 0%R).
End ParamEvaluation.

(** [tp.samplers.PlotSampler(plot_domain=I_x, n_points=n).sample_points()]
    for an interval [I_x = Interval(X, a, b)].  On an interval the library
    joins three samplers: the left end, a grid of [n] points inside the
    interval ([torch.linspace(0, 1, n + 2)[1:-1]], scaled to the interval)
    and the right end.  With [n_points=100] that makes 102 points. *)
Definition interval_grid (a b : Q) (n : nat) : tensor1 Q :=
  map (fun p => a + (b - a) * p)%Q (take n (drop 1 (linspace 0 1 (n + 2)))).

Definition plot_sampler_points (a b : Q) (n_points : nat) : tensor1 Q :=
  [a] ++ interval_grid a b n_points ++ [b].

(** [inp_data[:, 'x']] in iteration [i] of the evaluation loop:
    [I_x = Interval(X, 0, 1)] and [n_points=100]; the parameter value of
    the iteration is in the other column. *)
Definition inp_data_x (i : nat) : list R := map Q2R (plot_sampler_points 0 1 100).

(** Two test points, one with a small target: a sample for the accuracy
    check. *)
Definition sample_model_out : tensor3 Q := [[[2]; [100]]]%Q.
Definition sample_output_testing : tensor3 Q := [[[1]; [100]]]%Q.

(** A sample network (the first-order expansion of the exponential) and
    a sample plot grid for the error plot. *)
Definition sample_param_model (x k : R) : R := (1 + k * x)%R.
Definition sample_plot_points (i : nat) : list R := map Q2R (linspace 0 1 100).

(** A sample network whose error, [x], is largest at the right end of
    the interval. *)
Definition sample_end_model (x k : R) : R := (exp (k * x) + x)%R.

(** Sample fillings of the blanks, to run the loops on. *)
Definition sample_forward (th : Q) : result (tensor1 Q) := Ok [th].
Definition sample_loss_of (o : tensor1 Q) : result Q := Ok (Qsum o).
Definition sample_optimize (th : Q) : result Q := Ok (th / 2)%Q.
Definition sample_derivatives : derivatives :=
  Derivatives [1; 2]%Q [0; 1]%Q [49]%Q [1]%Q.
Definition sample_differentiate (th : Q) : result derivatives := Ok sample_derivatives.
Definition sample_state : train_state Q := TrainState 1%Q [] 0.

(** What a run of a loop shows: the number of optimization steps and the
    iterations at which a line was printed; nothing if it raised. *)
Definition run_summary (r : result (train_state Q)) : option (nat * list nat) :=
  match r with
  | Ok s => Some (iterations s, map fst (printed s))
  | Raise _ => None
  end.

(** *** Slices and in-place updates of the tensor primer *)

(** One position of an index expression [T[.., .., ..]]. *)
Inductive index : Type :=
| At (i : Z)       (* an integer *)
| All              (* [:] *)
| Upto (k : Z).    (* [:k] *)

(** Where the slice [:k] of a dimension of size [len] stops: a negative
    [k] counts from the end, and the result is clamped to [0 .. len]. *)
Definition slice_stop (len : nat) (k : Z) : nat :=
  if (k <? 0)%Z then Z.to_nat (Z.of_nat len + k) else Nat.min (Z.to_nat k) len.

(** An integer out of range raises [IndexError]; a slice never does. *)
Definition index_check (len : nat) (ix : index) : result unit :=
  match ix with
  | At i => _ ← normalize_index len i; Ok tt
  | All | Upto _ => Ok tt
  end.

(** Whether position [p] of a dimension of size [len] is addressed. *)
Definition selects (len : nat) (ix : index) (p : nat) : bool :=
  match ix with
  | At i => match normalize_index len i with
            | Ok q => (p =? q)%nat
            | Raise _ => false
            end
  | All => true
  | Upto k => (p <? slice_stop len k)%nat
  end.

(** What an index means on an axis of size [len], written out on
    positions without the functions above; the statements about slices
    are made with these.  An integer [i] must lie in [-len .. len - 1]
    and stands for position [i], or [len + i] when it is negative; [:] is
    every position; [:c] is the positions below [c], or below [len + c]
    when [c] is negative. *)
Definition index_valid (len : nat) (ix : index) : Prop :=
  match ix with
  | At i => (- Z.of_nat len <= i < Z.of_nat len)%Z
  | All | Upto _ => True
  end.

Definition addressed (len : nat) (ix : index) (p : nat) : Prop :=
  match ix with
  | At i => Z.of_nat p = i \/ Z.of_nat p = (Z.of_nat len + i)%Z
  | All => True
  | Upto c => (0 <= c /\ Z.of_nat p < c)%Z \/ (c < 0 /\ Z.of_nat p < Z.of_nat len + c)%Z
  end.

(** Sizes of the second and third axis, read off the first entries (the
    nested lists of a tensor with an empty first axis do not record
    them: such tensors are outside the model). *)
Definition dim2 {A : Type} (T : tensor3 A) : nat := length (default [] (head T)).
Definition dim3 {A : Type} (T : tensor3 A) : nat :=
  length (default [] (head (default [] (head T)))).

(** [T[ix, jx, kx] = f(T[ix, jx, kx])] in place: the addressed entries are
    rewritten, [f] also sees the position on the first axis. *)
Definition update_slice {A : Type} (f : nat -> A -> A) (T : tensor3 A) (ix jx kx : index)
  : result (tensor3 A) :=
  _ ← index_check (length T) ix;
  _ ← index_check (dim2 T) jx;
  _ ← index_check (dim3 T) kx;
  Ok (imap (fun i M =>
        imap (fun j v =>
          imap (fun l x =>
            if selects (length T) ix i && selects (dim2 T) jx j && selects (dim3 T) kx l
            then f i x else x) v) M) T).

(** [T[ix, jx, kx] = c], [T[ix, jx, kx] += c] and [T[ix, jx, kx] *= c] *)
Definition assign_slice (c : Q) := update_slice (fun _ _ => c).
Definition iadd_slice (c : Q) := update_slice (fun _ x => (x + c)%Q).
Definition imul_slice (c : Q) := update_slice (fun _ x => (x * c)%Q).

(** [T[:, j, k] = values] for a rank-1 tensor [values]: the indices are
    resolved first, so an integer out of range raises [IndexError] whatever
    the values are; then one value per entry of the first axis is written
    (a single value is broadcast), and any other number of values raises. *)
Definition assign_values (values : tensor1 Q) (T : tensor3 Q) (j k : Z)
  : result (tensor3 Q) :=
  _ ← index_check (dim2 T) (At j);
  _ ← index_check (dim3 T) (At k);
  if (length values =? length T)%nat
  then update_slice (fun i _ => nth i values 0%Q) T All (At j) (At k)
  else if (length values =? 1)%nat
       then update_slice (fun _ _ => nth 0 values 0%Q) T All (At j) (At k)
       else Raise RuntimeError.

(** [T[mask]] for a list of booleans: the entries of the first axis at
    the positions that hold [True]; the mask must have the size of that
    axis.  The empty list is no mask but an empty list of positions: it
    selects nothing from a tensor of any size. *)
Definition mask_select {A : Type} (mask : list bool) (T : list A) : result (list A) :=
  match mask with
  | [] => Ok []
  | _ =>
      if (length mask =? length T)%nat
      then Ok (omap (fun p : bool * A => if fst p then Some (snd p) else None) (zip mask T))
      else Raise IndexError
  end.

(** [T[:k]] on the first axis: the axis is kept. *)
Definition slice_upto {A : Type} (T : list A) (k : Z) : list A :=
  take (slice_stop (length T) k) T.

(** [T.reshape(n, m)] of a rank-3 tensor and [M.reshape(n)] of a matrix:
    the entries in storage order, cut into rows. *)
Definition reshape3_to_2 {A : Type} (T : tensor3 A) (n m : nat) : result (tensor2 A) :=
  reshape2 (flatten3 T) n m.

Definition reshape2_to_1 {A : Type} (M : tensor2 A) (n : nat) : result (tensor1 A) :=
  if (length (concat M) =? n)%nat then Ok (concat M) else Raise RuntimeError.

(** The cells of the tensor primer after the indexing cell, in order:
    [test_tensor[:, 0, 0] = 2], [test_tensor[:, 1, :] = 3],
    [test_tensor[:, 0, 0] += 1], [new_values = torch.linspace(1, 3, 3)],
    [test_tensor[:, 0, 1] = new_values], [test_tensor[:2, 0, :] *= -1]. *)
Definition new_values : tensor1 Q := linspace 1 3 3.

Definition primer_top_left_2 : result (tensor3 Q) :=
  T ← test_tensor_after_writes; assign_slice 2 T All (At 0) (At 0).
Definition primer_bottom_row_3 : result (tensor3 Q) :=
  T ← primer_top_left_2; assign_slice 3 T All (At 1) All.
Definition primer_top_left_plus_1 : result (tensor3 Q) :=
  T ← primer_bottom_row_3; iadd_slice 1 T All (At 0) (At 0).
Definition primer_top_right_values : result (tensor3 Q) :=
  T ← primer_top_left_plus_1; assign_values new_values T 0 1.
Definition primer_first_two_negated : result (tensor3 Q) :=
  T ← primer_top_right_values; imul_slice (-1) T (Upto 2) (At 0) All.

(** Entry by entry equality of rational tensors. *)
Definition Qeq3 (a b : tensor3 Q) : Prop := Forall2 (Forall2 (Forall2 Qeq)) a b.
Definition Qeq2 (a b : tensor2 Q) : Prop := Forall2 (Forall2 Qeq) a b.

(** The conditions under which the two hand-written loops print. *)
Definition physics_prints (k : nat) : bool :=
  (k mod 250 =? 0)%nat || (k =? Params.train_iterations - 1)%nat.
Definition data_driven_prints (t : nat) : bool :=
  (t =? 0)%nat || (t mod 250 =? 249)%nat.

(** A loop body that raises in its fourth iteration. *)
Definition sample_failing_body (k : nat) (s : nat) : result nat :=
  if (k =? 3)%nat then Raise RuntimeError else Ok (S s).

(** *** The conditions of the parameterized notebook *)

(** [def pde_residual(u, x, k): return tp.utils.grad(u, x) - k * u];
    [grad_u_x] is the value of [tp.utils.grad(u, x)]. *)
Definition pde_residual (grad_u_x u k : R) : R := (grad_u_x - k * u)%R.

(** [def boundary_residual(u): return u - 1.0] *)
Definition boundary_residual (u : R) : R := (u - 1.0)%R.

(** The reference of the error plot, [torch.exp(k * x)]. *)
Definition exact_solution (k x : R) : R := exp (k * x).

(** *** The commit-message hook

    The shell script at the head of the data-driven notebook's file adds
    a [Signed-off-by:] line to a commit message.  The message file is a
    list of lines.  The script leans on the shell in three places that
    the model does not follow: [echo $commit_msg] and
    [echo -e $commit_hint] expand file-name patterns and, for [-e],
    backslash escapes, and a message that starts with [-] is read by
    [echo] as options.  [shell_plain] is the text for which none of this
    applies. *)

Module CommitHook.
Import String.StringSyntax Ascii.AsciiSyntax.
Local Delimit Scope string_scope with string.
Local Delimit Scope char_scope with char.

(** [git config user.name] and [git config user.email] *)
Record identity : Type := Identity { user_name : String.string; user_email : String.string }.

(** The pattern [^#] of both [sed] commands. *)
Definition is_comment (l : String.string) : bool := String.prefix "#"%string l.

(** The pattern of [grep "^Signed-off-by: "]. *)
Definition is_signoff (l : String.string) : bool := String.prefix "Signed-off-by: "%string l.

(** [sed '/^#/,$d']: the lines before the first comment line. *)
Fixpoint before_comment (ls : list String.string) : list String.string :=
  match ls with
  | [] => []
  | l :: ls' => if is_comment l then [] else l :: before_comment ls'
  end.

(** [sed '/^#/,$!d']: the first comment line and everything after it. *)
Fixpoint from_comment (ls : list String.string) : list String.string :=
  match ls with
  | [] => []
  | l :: ls' => if is_comment l then l :: ls' else from_comment ls'
  end.

Definition is_empty (l : String.string) : bool :=
  match l with String.EmptyString => true | _ => false end.

(** [$(...)] drops the newlines at the end of the output: the empty
    lines at the end. *)
Fixpoint strip_trailing_empty (ls : list String.string) : list String.string :=
  match ls with
  | [] => []
  | l :: ls' =>
      match strip_trailing_empty ls' with
      | [] => if is_empty l then [] else [l]
      | rest => l :: rest
      end
  end.

(** [echo $x] for the lines held by [x]: the lines, or a single empty line
    when [x] is empty. *)
Definition echo (ls : list String.string) : list String.string :=
  match ls with
  | [] => [String.EmptyString]
  | _ => ls
  end.

(** [echo -e "\nSigned-off-by:" $GIT_USER_NAME \<$GIT_USER_EMAIL\> "\n"]:
    the words joined by single spaces between two newlines; an empty
    name is no word. *)
Definition signoff_line (id : identity) : String.string :=
  String.append "Signed-off-by: "%string
    (String.append
       (if is_empty (user_name id) then String.EmptyString
        else String.append (user_name id) " "%string)
       (String.append "<"%string (String.append (user_email id) "> "%string))).

Definition signoff_block (id : identity) : list String.string :=
  [String.EmptyString; signoff_line id; String.EmptyString].

(** The script: a message with a sign-off is left alone ([exit 0]);
    otherwise the file is rewritten as the message, the sign-off block and
    the comment lines. *)
Definition hook (id : identity) (ls : list String.string) : list String.string :=
  if existsb is_signoff ls then ls
  else echo (strip_trailing_empty (before_comment ls))
       ++ signoff_block id
       ++ echo (strip_trailing_empty (from_comment ls)).

(** Characters the shell gives a meaning to in an unquoted word or that
    [echo -e] rewrites. *)
Definition plain_char (c : Ascii.ascii) : bool :=
  negb (Ascii.eqb c "\"%char) && negb (Ascii.eqb c "*"%char)
  && negb (Ascii.eqb c "?"%char) && negb (Ascii.eqb c "["%char).

Fixpoint all_chars (p : Ascii.ascii -> bool) (s : String.string) : bool :=
  match s with
  | String.EmptyString => true
  | String.String c s' => p c && all_chars p s'
  end.

Definition shell_plain (s : String.string) : bool :=
  all_chars plain_char s && negb (String.prefix "-"%string s).

(** A sample message as git presents it to the hook. *)
Definition sample_identity : identity := Identity "Ada Lovelace"%string "ada@example.org"%string.
Definition sample_message : list String.string :=
  ["Fix the time grid"%string; String.EmptyString; "# Please enter the commit message"%string;
   "# On branch main"%string].
End CommitHook.

(** ** Part II: properties *)

(** *** The closed form and the reference expression *)

Section ClosedFormFacts.
Local Open Scope R_scope.

Lemma D_R_val : D_R = 0.02.
Proof. unfold D_R, Params.D, Q2R; simpl. lra. Qed.

Lemma g_R_val : g_R = 9.81.
Proof. unfold g_R, Params.g, Q2R; simpl. lra. Qed.

Lemma H_R_val : H_R = 50.
Proof. unfold H_R, Params.H, Q2R; simpl. lra. Qed.

Lemma log_arg_pos D g t : 0 < log_arg D g t.
Proof.
  unfold log_arg. pose proof (exp_pos (-2 * sqrt (D * g) * t)). lra.
Qed.

(** For a positive product [D*g] and a positive time the argument of
    the logarithm is below one, so the logarithm is negative. *)
Lemma log_arg_lt_1 D g t : 0 < D * g -> 0 < t -> log_arg D g t < 1.
Proof.
  intros HDg Ht. unfold log_arg.
  assert (Hs : 0 < sqrt (D * g)) by (apply sqrt_lt_R0; assumption).
  assert (He : exp (-2 * sqrt (D * g) * t) < exp 0).
  { apply exp_increasing. nra. }
  rewrite exp_0 in He. lra.
Qed.

Lemma ln_log_arg_neg D g t : 0 < D * g -> 0 < t -> ln (log_arg D g t) < 0.
Proof.
  intros HDg Ht. rewrite <- ln_1.
  apply ln_increasing; [apply log_arg_pos | apply log_arg_lt_1; assumption].
Qed.

Lemma log_arg_0 D g : log_arg D g 0 = 1.
Proof.
  unfold log_arg. replace (-2 * sqrt (D * g) * 0) with 0 by ring.
  rewrite exp_0. lra.
Qed.

(** The two expressions differ by twice the logarithm term. *)
Lemma real_out_minus_closed_form D g H t :
  real_out D g H t - u_closed_form D g H t = - (2 / D) * ln (log_arg D g t).
Proof.
  unfold real_out, u_closed_form, sqrt_term, log_arg.
  destruct (Req_dec D 0) as [-> | HD].
  - unfold Rdiv. rewrite Rinv_0. ring.
  - field. assumption.
Qed.

(** C1 (as stated, refuted): on [0, 3] the reference expression of the
    accuracy check and the closed form of the specification are not the
    same function of [t]; at [t = 1] the reference expression is strictly
    larger. *)
Lemma real_out_closed_form_not_equal :
  ~ (forall t, 0 <= t <= 3 -> real_out D_R g_R H_R t = u_closed_form D_R g_R H_R t).
Proof.
  intros Heq. specialize (Heq 1 ltac:(lra)).
  pose proof (real_out_minus_closed_form D_R g_R H_R 1) as Hd.
  assert (Hn : ln (log_arg D_R g_R 1) < 0).
  { apply ln_log_arg_neg; [rewrite D_R_val, g_R_val |]; lra. }
  assert (HD : 2 / D_R = 100) by (rewrite D_R_val; lra).
  rewrite Heq, HD in Hd. lra.
Qed.

(** C1 (amended): for every [t] in [0, 3] the reference expression equals
    the closed form of the specification minus [(2/D)] times the logarithm
    term (the two carry the logarithm with opposite signs); they agree at
    [t = 0] only, and for [t > 0] the reference expression is the larger. *)
Theorem real_out_closed_form_sign (t : R) :
  0 <= t <= 3 ->
  real_out D_R g_R H_R t
    = u_closed_form D_R g_R H_R t - 2 / D_R * ln (log_arg D_R g_R t)
  /\ (real_out D_R g_R H_R t = u_closed_form D_R g_R H_R t <-> t = 0)
  /\ (0 < t -> u_closed_form D_R g_R H_R t < real_out D_R g_R H_R t).
Proof.
  intros [Ht0 Ht3].
  pose proof (real_out_minus_closed_form D_R g_R H_R t) as Hd.
  assert (Hpos : 0 < t -> ln (log_arg D_R g_R t) < 0).
  { intros Ht. apply ln_log_arg_neg; [rewrite D_R_val, g_R_val; lra | exact Ht]. }
  assert (HD : 2 / D_R = 100) by (rewrite D_R_val; lra).
  rewrite HD in *. split; [lra |]. split.
  - split.
    + intros Heq. destruct (Rle_lt_or_eq_dec 0 t Ht0) as [Hlt | <-]; [| reflexivity].
      specialize (Hpos Hlt). rewrite Heq in Hd. lra.
    + intros ->. rewrite log_arg_0, ln_1 in Hd. lra.
  - intros Ht. specialize (Hpos Ht). lra.
Qed.

Lemma real_out_closed_form_sign_witness :
  0 <= 1 <= 3
  /\ (real_out D_R g_R H_R 1
       = u_closed_form D_R g_R H_R 1 - 2 / D_R * ln (log_arg D_R g_R 1)
      /\ (real_out D_R g_R H_R 1 = u_closed_form D_R g_R H_R 1 <-> 1 = 0)
      /\ (0 < 1 -> u_closed_form D_R g_R H_R 1 < real_out D_R g_R H_R 1)).
Proof. split; [lra | apply (real_out_closed_form_sign 1); lra]. Defined.

(** At [t = 0] the exponential is 1 and the logarithm vanishes, whatever
    the parameters are. *)
Lemma u_closed_form_0 D g H : u_closed_form D g H 0 = H.
Proof.
  unfold u_closed_form. fold (log_arg D g 0). rewrite log_arg_0, ln_1. ring.
Qed.

Lemma real_out_0 D g H : real_out D g H 0 = H.
Proof.
  unfold real_out, sqrt_term. fold (log_arg D g 0). rewrite log_arg_0, ln_1. ring.
Qed.

(** C6: for every [D] in [0.01, 1.0] the closed form satisfies
    [u(0; D) = H], and the reference expression [real_out] of the
    notebook (with its [D = 0.02]) evaluated at [t = 0] equals [H] too. *)
Theorem closed_form_initial_height (D : R) :
  0.01 <= D <= 1.0 ->
  u_closed_form D g_R H_R 0 = H_R /\ real_out D_R g_R H_R 0 = H_R.
Proof.
  intros _. split; [apply u_closed_form_0 | apply real_out_0].
Qed.

Lemma closed_form_initial_height_witness :
  0.01 <= 0.5 <= 1.0
  /\ (u_closed_form 0.5 g_R H_R 0 = H_R /\ real_out D_R g_R H_R 0 = H_R).
Proof. split; [lra | apply (closed_form_initial_height 0.5); lra]. Defined.

(** **** Which of the two expressions solves the governing equation

    The physics-informed notebook trains on [u_tt = D*(u_t)^2 - g],
    [u(0) = H], [u_t(0) = 0].  The reference expression [real_out]
    satisfies all three; the closed form as the markdown writes it has
    initial velocity [-2*sqrt(D*g)/D], not [0]. *)

Lemma dl_ext (f h : R -> R) x l :
  (forall y, f y = h y) -> derivable_pt_lim f x l -> derivable_pt_lim h x l.
Proof.
  intros Hfh Hf eps Heps. destruct (Hf eps Heps) as [delta Hd].
  exists delta. intros k Hk Hlt. rewrite <- !Hfh. apply Hd; assumption.
Qed.

Lemma dl_eq (f : R -> R) x l l' :
  l = l' -> derivable_pt_lim f x l -> derivable_pt_lim f x l'.
Proof. intros ->. trivial. Qed.

Lemma dl_exp_lin a t : derivable_pt_lim (fun t => exp (a * t)) t (a * exp (a * t)).
Proof.
  apply dl_eq with (l := exp (a * t) * (a * 1)); [ring |].
  exact (derivable_pt_lim_comp (mult_real_fct a id) exp t (a * 1) (exp (a * t))
           (derivable_pt_lim_scal id a t 1 (derivable_pt_lim_id t))
           (derivable_pt_lim_exp (a * t))).
Qed.

Lemma dl_log_arg D g t :
  derivable_pt_lim (log_arg D g) t
    ((-2 * sqrt (D * g)) * exp (-2 * sqrt (D * g) * t) / 2).
Proof.
  set (a := -2 * sqrt (D * g)).
  apply dl_ext with (f := (mult_real_fct (/ 2) (fct_cte 1 + (fun t => exp (a * t))))%F).
  { intros y. unfold log_arg, mult_real_fct, plus_fct, fct_cte. fold a. field. }
  apply dl_eq with (l := / 2 * (0 + a * exp (a * t))); [field |].
  apply derivable_pt_lim_scal, derivable_pt_lim_plus;
    [apply derivable_pt_lim_const | apply dl_exp_lin].
Qed.

Lemma dl_ln_log_arg D g t :
  derivable_pt_lim (fun t => ln (log_arg D g t)) t
    ((-2 * sqrt (D * g)) * exp (-2 * sqrt (D * g) * t)
     / (1 + exp (-2 * sqrt (D * g) * t))).
Proof.
  pose proof (exp_pos (-2 * sqrt (D * g) * t)) as He.
  eapply dl_eq; cycle 1.
  - exact (derivable_pt_lim_comp (log_arg D g) ln t _ _ (dl_log_arg D g t)
             (derivable_pt_lim_ln (log_arg D g t) (log_arg_pos D g t))).
  - unfold log_arg. field. lra.
Qed.

(** The velocity of the reference expression. *)
Lemma real_out_derivative D g H t :
  D <> 0 -> derivable_pt_lim (real_out D g H) t (real_out_t D g t).
Proof.
  intros HD. pose proof (exp_pos (-2 * sqrt (D * g) * t)) as He.
  apply dl_ext with
    (f := (fct_cte H - mult_real_fct (1 / D)
             ((fun t => ln (log_arg D g t)) + mult_real_fct (sqrt (D * g)) id))%F).
  { intros y. reflexivity. }
  eapply dl_eq; cycle 1.
  - apply derivable_pt_lim_minus; [apply derivable_pt_lim_const |].
    apply derivable_pt_lim_scal, derivable_pt_lim_plus;
      [apply dl_ln_log_arg | apply derivable_pt_lim_scal, derivable_pt_lim_id].
  - unfold real_out_t, sqrt_term. field. split; lra.
Qed.

(** The acceleration of the reference expression is the right-hand side
    of the governing equation at its velocity. *)
Lemma real_out_t_derivative D g t :
  0 < D -> 0 <= g ->
  derivable_pt_lim (real_out_t D g) t (ode_rhs D g (real_out_t D g t)).
Proof.
  intros HD Hg. set (a := -2 * sqrt (D * g)).
  pose proof (exp_pos (a * t)) as He.
  assert (Hs : sqrt (D * g) * sqrt (D * g) = D * g) by (apply sqrt_sqrt; nra).
  apply dl_ext with
    (f := (mult_real_fct (- (sqrt (D * g) / D))
             ((fct_cte 1 - (fun t => exp (a * t)))
              / (fct_cte 1 + (fun t => exp (a * t)))))%F).
  { intros y. reflexivity. }
  eapply dl_eq; cycle 1.
  - apply derivable_pt_lim_scal, derivable_pt_lim_div.
    + apply derivable_pt_lim_minus; [apply derivable_pt_lim_const | apply dl_exp_lin].
    + apply derivable_pt_lim_plus; [apply derivable_pt_lim_const | apply dl_exp_lin].
    + unfold plus_fct, fct_cte. lra.
  - unfold ode_rhs, real_out_t, sqrt_term, minus_fct, plus_fct, fct_cte. fold a.
    set (E := exp (a * t)) in *. set (s := sqrt (D * g)) in *.
    assert (Hg' : g = s * s / D) by (rewrite Hs; field; lra).
    rewrite Hg'. unfold a, Rsqr. clearbody E. clearbody s. field. split; lra.
Qed.

Lemma real_out_t_0 D g : real_out_t D g 0 = 0.
Proof.
  unfold real_out_t. replace (-2 * sqrt_term D g * 0) with 0 by ring.
  rewrite exp_0. unfold Rdiv. ring.
Qed.

(** X19: the reference expression of the accuracy check solves the initial
    value problem the notebook states: it starts at [H] with velocity 0,
    and at every time its acceleration is [D*(u_t)^2 - g]. *)
Theorem real_out_solves_ode (t : R) :
  real_out D_R g_R H_R 0 = H_R
  /\ derivable_pt_lim (real_out D_R g_R H_R) 0 0
  /\ derivable_pt_lim (real_out D_R g_R H_R) t (real_out_t D_R g_R t)
  /\ derivable_pt_lim (real_out_t D_R g_R) t (ode_rhs D_R g_R (real_out_t D_R g_R t)).
Proof.
  assert (HD : 0 < D_R) by (rewrite D_R_val; lra).
  assert (Hg : 0 <= g_R) by (rewrite g_R_val; lra).
  split; [apply real_out_0 |].
  split.
  { apply dl_eq with (l := real_out_t D_R g_R 0);
      [apply real_out_t_0 | apply real_out_derivative; lra]. }
  split; [apply real_out_derivative; lra | apply real_out_t_derivative; assumption].
Qed.

(** The closed form as written in the markdown starts with the velocity
    [-2*sqrt(D*g)/D]. *)
Lemma u_closed_form_velocity_0 D g H :
  D <> 0 -> derivable_pt_lim (u_closed_form D g H) 0 (- (2 * sqrt (D * g) / D)).
Proof.
  intros HD.
  apply dl_ext with
    (f := (mult_real_fct (1 / D)
             ((fun t => ln (log_arg D g t)) - mult_real_fct (sqrt (D * g)) id)
           + fct_cte H)%F).
  { intros y. reflexivity. }
  eapply dl_eq; cycle 1.
  - apply derivable_pt_lim_plus; [| apply derivable_pt_lim_const].
    apply derivable_pt_lim_scal, derivable_pt_lim_minus;
      [apply dl_ln_log_arg | apply derivable_pt_lim_scal, derivable_pt_lim_id].
  - replace (-2 * sqrt (D * g) * 0) with 0 by ring. rewrite exp_0. field. assumption.
Qed.

(** X20: the closed form as the notebooks' markdown writes it does not
    satisfy the initial condition [u_t(0) = 0] they state with it: its
    derivative at 0 exists and is negative. *)
Theorem u_closed_form_initial_velocity_nonzero :
  exists v, derivable_pt_lim (u_closed_form D_R g_R H_R) 0 v /\ v < 0.
Proof.
  exists (- (2 * sqrt (D_R * g_R) / D_R)). split.
  - apply u_closed_form_velocity_0. rewrite D_R_val. lra.
  - assert (Hs : 0 < sqrt (D_R * g_R)).
    { apply sqrt_lt_R0. rewrite D_R_val, g_R_val. lra. }
    rewrite D_R_val at 2. lra.
Qed.
End ClosedFormFacts.

(** *** Integer indexing of a rank-3 tensor *)

Section Indexing.
Local Open Scope Z_scope.

Lemma normalize_index_nonneg (len : nat) (i : Z) :
  0 <= i ->
  normalize_index len i
    = if decide (i < Z.of_nat len) then Ok (Z.to_nat i) else Raise IndexError.
Proof.
  intros Hi. unfold normalize_index.
  destruct (decide (i < Z.of_nat len)) as [Hlt | Hge].
  - replace (0 <=? i) with true by (symmetry; apply Z.leb_le; lia).
    replace (i <? Z.of_nat len) with true by (symmetry; apply Z.ltb_lt; lia).
    reflexivity.
  - replace (i <? Z.of_nat len) with false by (symmetry; apply Z.ltb_ge; lia).
    replace (i <? 0) with false by (symmetry; apply Z.ltb_ge; lia).
    rewrite !andb_false_r. reflexivity.
Qed.

Lemma getitem_in_range {A : Type} (l : list A) (i : Z) :
  0 <= i < Z.of_nat (length l) ->
  exists a, l !! Z.to_nat i = Some a /\ getitem l i = Ok a.
Proof.
  intros [Hi Hlt]. unfold getitem. rewrite normalize_index_nonneg by assumption.
  destruct (decide (i < Z.of_nat (length l))); [| lia].
  destruct (lookup_lt_is_Some_2 l (Z.to_nat i)) as [a Ha]; [lia |].
  exists a. split; [exact Ha |]. simpl. rewrite Ha. reflexivity.
Qed.

Lemma getitem_out_of_range {A : Type} (l : list A) (i : Z) :
  Z.of_nat (length l) <= i -> getitem l i = Raise IndexError.
Proof.
  intros Hge. unfold getitem. rewrite normalize_index_nonneg by lia.
  destruct (decide (i < Z.of_nat (length l))); [lia | reflexivity].
Qed.

Lemma getitem3_in_range {A : Type} (n m k : nat) (T : tensor3 A) (i j l : Z) :
  has_shape3 n m k T ->
  0 <= i < Z.of_nat n -> 0 <= j < Z.of_nat m -> 0 <= l < Z.of_nat k ->
  exists x, getitem3 T i j l = Ok x.
Proof.
  intros [Hn HT] Hi Hj Hl. unfold getitem3.
  destruct (getitem_in_range T i) as (M & HM & ->); [lia |].
  rewrite Forall_lookup in HT. destruct (HT _ _ HM) as [Hm HMs]. simpl.
  destruct (getitem_in_range M j) as (v & Hv & ->); [lia |].
  rewrite Forall_lookup in HMs. specialize (HMs _ _ Hv). simpl.
  destruct (getitem_in_range v l) as (x & _ & ->); [lia |].
  exists x. reflexivity.
Qed.

Lemma getitem3_out_of_range {A : Type} (n m k : nat) (T : tensor3 A) (i j l : Z) :
  has_shape3 n m k T ->
  0 <= i -> 0 <= j -> 0 <= l ->
  ~ (i < Z.of_nat n /\ j < Z.of_nat m /\ l < Z.of_nat k) ->
  getitem3 T i j l = Raise IndexError.
Proof.
  intros [Hn HT] Hi Hj Hl Hout. unfold getitem3.
  destruct (decide (i < Z.of_nat n)) as [Hin | Hin];
    [| rewrite getitem_out_of_range by lia; reflexivity].
  destruct (getitem_in_range T i) as (M & HM & ->); [lia |].
  rewrite Forall_lookup in HT. destruct (HT _ _ HM) as [Hm HMs]. simpl.
  destruct (decide (j < Z.of_nat m)) as [Hjn | Hjn];
    [| rewrite getitem_out_of_range by lia; reflexivity].
  destruct (getitem_in_range M j) as (v & Hv & ->); [lia |].
  rewrite Forall_lookup in HMs. specialize (HMs _ _ Hv). simpl.
  apply getitem_out_of_range. lia.
Qed.

Lemma test_tensor_shape : has_shape3 3 2 2 test_tensor.
Proof. split; [reflexivity |]. repeat constructor. Qed.

(** The three writes of the cell succeed and give the tensor the
    notebook prints. *)
Example test_tensor_after_writes_value :
  test_tensor_after_writes
    = Ok [[[1.0; 2.0]; [0; 0]]; [[0; 0]; [0; 0]]; [[0; 0]; [5.0; 0]]]%Q.
Proof. reflexivity. Qed.

(** Negative indices count from the end, once. *)
Example getitem3_negative_index :
  getitem3 test_tensor (-1) (-2) (-1) = Ok 0%Q
  /\ getitem3 test_tensor (-4) 0 0 = Raise IndexError.
Proof. split; reflexivity. Qed.

(** C10: indexing a tensor of shape (3, 2, 2) with indices counted from 0
    returns a value exactly when [i < 3], [j < 2] and [k < 2]; any index at
    or beyond the size of its dimension raises [IndexError], as does
    [test_tensor[3, 0, 0]]. *)
Theorem getitem3_value_iff_in_range (T : tensor3 Q) (i j k : Z) :
  has_shape3 3 2 2 T -> 0 <= i -> 0 <= j -> 0 <= k ->
  ((exists x, getitem3 T i j k = Ok x) <-> i < 3 /\ j < 2 /\ k < 2)
  /\ (~ (i < 3 /\ j < 2 /\ k < 2) -> getitem3 T i j k = Raise IndexError)
  /\ getitem3 test_tensor 3 0 0 = Raise IndexError.
Proof.
  intros HT Hi Hj Hk. split; [| split].
  - split.
    + intros [x Hx].
      destruct (decide (i < 3 /\ j < 2 /\ k < 2)) as [Hin | Hout]; [exact Hin |].
      rewrite (getitem3_out_of_range 3 2 2) in Hx by (assumption || exact Hout).
      discriminate.
    + intros (Hi3 & Hj2 & Hk2). apply (getitem3_in_range 3 2 2); (assumption || lia).
  - intros Hout. apply (getitem3_out_of_range 3 2 2); assumption.
  - reflexivity.
Qed.

Lemma getitem3_value_iff_in_range_witness :
  has_shape3 3 2 2 test_tensor /\ 0 <= 2 /\ 0 <= 1 /\ 0 <= 0
  /\ ((exists x, getitem3 test_tensor 2 1 0 = Ok x) <-> 2 < 3 /\ 1 < 2 /\ 0 < 2)
  /\ (~ (2 < 3 /\ 1 < 2 /\ 0 < 2) -> getitem3 test_tensor 2 1 0 = Raise IndexError)
  /\ getitem3 test_tensor 3 0 0 = Raise IndexError.
Proof.
  split; [exact test_tensor_shape |]. do 3 (split; [lia |]).
  apply (getitem3_value_iff_in_range test_tensor 2 1 0);
    [exact test_tensor_shape | lia ..].
Defined.
End Indexing.

(** *** The toy differentiation example *)

Lemma allclose_spec (atol : Q) (a b : tensor1 Q) :
  allclose atol a b = true <->
  length a = length b
  /\ forall i x y, a !! i = Some x -> b !! i = Some y -> (Qabs (x - y) <= atol)%Q.
Proof.
  unfold allclose. rewrite andb_true_iff, Nat.eqb_eq, forallb_forall. split.
  - intros [Hlen Hall]. split; [exact Hlen |]. intros i x y Hx Hy.
    apply Qle_bool_iff. apply (Hall (x, y)). apply list_elem_of_In.
    apply (list_elem_of_lookup_2 _ i). apply lookup_zip_with_Some. eauto.
  - intros [Hlen Hall]. split; [exact Hlen |]. intros [x y] Hin.
    apply list_elem_of_In, list_elem_of_lookup in Hin. destruct Hin as [i Hi].
    apply lookup_zip_with_Some in Hi. destruct Hi as (x' & y' & Heq & Hx & Hy).
    inversion Heq; subst. apply Qle_bool_iff. simpl. eapply Hall; eassumption.
Qed.

Section SumOfSquares.
Variable t : tensor1 Q.

Lemma py_sum_S k u : py_sum (S k) u = SAdd (py_sum k u) (SSelect k u).
Proof. unfold py_sum. rewrite seq_S, fold_left_app. reflexivity. Qed.

(** Selecting entry [i] of [t**2] sends [2 * t[i]] to position [i]. *)
Lemma backward_select_square_lookup i j x :
  t !! j = Some x ->
  exists y, backward_s t (SSelect i (TPow TLeaf 2)) 1 !! j = Some y
            /\ (y == if decide (i = j) then 2 * x else 0)%Q.
Proof.
  intros Hx. cbn [backward_s backward_t eval_t]. rewrite length_map, lookup_zip_with.
  assert (Hj : (j < length t)%nat) by (eapply lookup_lt_Some; eassumption).
  destruct (decide (i = j)) as [-> | Hne].
  - rewrite list_lookup_insert_eq by (rewrite length_replicate; exact Hj).
    simpl. rewrite Hx. simpl. eexists. split; [reflexivity |].
    change (Z.of_nat 2 - 1)%Z with 1%Z. simpl. ring.
  - rewrite list_lookup_insert_ne by exact Hne.
    rewrite lookup_replicate_2 by exact Hj.
    simpl. rewrite Hx. simpl. eexists. split; [reflexivity |]. ring.
Qed.

(** After [k] rounds of Python's [sum] the first [k] positions of the
    gradient are filled. *)
Lemma backward_py_sum_lookup k j x :
  t !! j = Some x ->
  exists y, backward_s t (py_sum k (TPow TLeaf 2)) 1 !! j = Some y
            /\ (y == if decide (j < k)%nat then 2 * x else 0)%Q.
Proof.
  intros Hx. induction k as [| k IH].
  - simpl. rewrite lookup_replicate_2 by (eapply lookup_lt_Some; eassumption).
    eexists. split; [reflexivity |]. destruct (decide (j < 0)%nat); [lia | reflexivity].
  - destruct IH as (y & Hy & Hyv).
    destruct (backward_select_square_lookup k j x Hx) as (z & Hz & Hzv).
    rewrite py_sum_S. cbn [backward_s]. rewrite lookup_zip_with.
    cbn [backward_s] in Hz. rewrite Hy, Hz. simpl.
    eexists. split; [reflexivity |]. rewrite Hyv, Hzv.
    destruct (decide (j < k)%nat), (decide (k = j)), (decide (j < S k)%nat);
      try lia; ring.
Qed.

Lemma backward_py_sum_length k :
  length (backward_s t (py_sum k (TPow TLeaf 2)) 1) = length t.
Proof.
  induction k as [| k IH].
  - simpl. apply length_replicate.
  - rewrite py_sum_S. cbn [backward_s]. rewrite length_zip_with, IH.
    simpl. rewrite length_zip_with, length_insert, length_replicate, length_map. lia.
Qed.

Lemma backward_py_sum_squares :
  Forall2 Qeq (backward_s t (py_sum (length t) (TPow TLeaf 2)) 1) (map (Qmult 2) t).
Proof.
  apply Forall2_same_length_lookup_2.
  - rewrite length_map. apply backward_py_sum_length.
  - intros j y z Hy Hz. rewrite list_lookup_fmap in Hz.
    destruct (t !! j) as [x |] eqn:Hx; [| discriminate]. inversion Hz; subst z.
    destruct (backward_py_sum_lookup (length t) j x Hx) as (y' & Hy' & Hv).
    rewrite Hy in Hy'. inversion Hy'; subst y'.
    rewrite Hv. destruct (decide (j < length t)%nat) as [_ | Hge]; [reflexivity |].
    apply lookup_lt_Some in Hx. lia.
Qed.

(** X21: for every non-empty tensor [t], of any length, the cell
    [u = t**2; u_sum = sum(u); torch.autograd.grad(u_sum, t)] returns a
    tuple with one tensor, which is [2*t] entry by entry.  (For an empty
    tensor [sum(u)] is the integer 0 and the library call fails: that case
    is left out.) *)
Theorem grad_sum_of_squares :
  t <> [] ->
  exists grad : tensor1 Q,
    autograd_grad (py_sum (length (eval_t t toy_u)) toy_u) t = [grad]
    /\ Forall2 Qeq grad (map (Qmult 2) t).
Proof.
  intros _. eexists. split; [reflexivity |].
  unfold toy_u. cbn [eval_t]. rewrite length_map. apply backward_py_sum_squares.
Qed.
End SumOfSquares.

Lemma grad_sum_of_squares_witness :
  [3; -1]%Q <> []
  /\ exists grad : tensor1 Q,
       autograd_grad (py_sum (length (eval_t [3; -1]%Q toy_u)) toy_u) [3; -1]%Q = [grad]
       /\ Forall2 Qeq grad (map (Qmult 2) [3; -1]%Q).
Proof. split; [discriminate |]. apply (grad_sum_of_squares [3; -1]%Q). discriminate. Defined.

(** C7: for [u = t**2] on the grid [t = 0, 1, ..., 10] the tuple returned
    by [torch.autograd.grad(sum(u), t)] holds one tensor, which equals
    [(0, 2, 4, ..., 20)], equals the analytical derivative [2*t] entry by
    entry, and so agrees with it within the tolerance [1e-5]. *)
Theorem toy_autograd_is_2t :
  Forall2 Qeq toy_t [0; 1; 2; 3; 4; 5; 6; 7; 8; 9; 10]%Q
  /\ exists grad : tensor1 Q,
      toy_u_t = [grad]
      /\ getitem toy_u_t 0 = Ok grad
      /\ Forall2 Qeq grad [0; 2; 4; 6; 8; 10; 12; 14; 16; 18; 20]%Q
      /\ Forall2 Qeq grad toy_analytical
      /\ allclose 1e-5 grad toy_analytical = true.
Proof.
  split; [vm_compute; repeat constructor |].
  eexists. split; [reflexivity |]. split; [reflexivity |].
  split; [| split].
  - vm_compute. repeat constructor.
  - vm_compute. repeat constructor.
  - vm_compute. reflexivity.
Qed.

(** *** The regressors *)

(** With hidden layers of width 20, two inputs and one output, a network
    with [n + 1] hidden layers has [81 + 420 * n] parameters. *)
Lemma param_count_FCN_20 n :
  param_count (FCN 2 (replicate (S n) 20) 1) = (81 + 420 * n)%nat.
Proof.
  cbn [replicate FCN param_count].
  assert (H : forall k, param_count (FCN 20 (replicate k 20) 1) = (21 + 420 * k)%nat).
  { induction k as [| k IH]; [reflexivity |].
    cbn [replicate FCN param_count]. rewrite IH. lia. }
  rewrite H. lia.
Qed.

(** X22: among the networks with two inputs, one output and hidden layers
    of width 20, the parameter count the trainer printed (921) is the one
    of three hidden layers and of no other number. *)
Lemma hidden_count_from_params n :
  param_count (FCN 2 (replicate n 20) 1) = reported_trainable_params <-> n = 3%nat.
Proof.
  unfold reported_trainable_params. destruct n as [| n].
  - cbn. lia.
  - rewrite param_count_FCN_20. lia.
Qed.

(** C4 (as stated, refuted): not every regressor of the notebooks maps a
    2-dimensional input through exactly two hidden layers; the network of
    the physics-informed notebook takes one input feature and raises on
    two. *)
Lemma regressors_not_all_2_to_1 :
  ~ Forall maps_2_to_1_two_hidden_20 regressors
  /\ In model_physics regressors
  /\ input_dim model_physics = Some 1%nat
  /\ forward_shape model_physics 2 = Raise RuntimeError.
Proof.
  split; [| split; [right; left; reflexivity | split; reflexivity]].
  intros Hall. rewrite Forall_forall in Hall.
  assert (Hmem : In model_physics regressors) by (right; left; reflexivity).
  destruct (Hall model_physics Hmem) as (Hin & _). discriminate Hin.
Qed.

(** C4 (amended): every regressor of the notebooks has one output feature,
    hidden layers of width 20 with Tanh after each and no nonlinearity on
    the output layer.  The data-driven regressor is the one with two input
    features (t, D) and exactly two hidden layers; the physics-informed
    regressor has the same two hidden layers and one input feature (time);
    the parameterized regressor has two input features (x, k), three
    hidden layers and the 921 parameters the trainer reports. *)
Theorem regressors_architecture :
  Forall tanh_regressor_width_20 regressors
  /\ model_data_driven = two_hidden_tanh 2 20 1
  /\ maps_2_to_1_two_hidden_20 model_data_driven
  /\ model_physics = two_hidden_tanh 1 20 1
  /\ forward_shape model_physics 1 = Ok 1%nat
  /\ input_dim model_param = Some 2%nat
  /\ hidden_widths model_param = [20; 20; 20]%nat
  /\ param_count model_param = reported_trainable_params.
Proof.
  split.
  { repeat constructor; try (eexists; split; reflexivity);
      try (eexists; reflexivity); reflexivity. }
  split; [reflexivity |]. split.
  { repeat split; try reflexivity. eexists; reflexivity. }
  repeat split; reflexivity.
Qed.

(** *** Loss functions *)

Lemma MSELoss_same_length (a b : tensor1 Q) :
  length a = length b ->
  MSELoss a b = Ok (Qsum (zip_with (fun x y => (x - y) * (x - y)) a b)
                    / inject_Z (Z.of_nat (length a)))%Q.
Proof. intros Hlen. unfold MSELoss. rewrite Hlen, Nat.eqb_refl. reflexivity. Qed.

Lemma MSELoss_singleton (x y : Q) :
  exists l, MSELoss [x] [y] = Ok l /\ (l == (x - y) * (x - y))%Q.
Proof. eexists. split; [reflexivity |]. unfold Qsum. simpl. field. Qed.

(** Sizes that differ raise, unless one of them is 1. *)
Lemma MSELoss_shape_mismatch (a b : tensor1 Q) :
  length a <> length b -> length a <> 1%nat -> length b <> 1%nat ->
  MSELoss a b = Raise RuntimeError.
Proof.
  intros Hne Ha Hb. unfold MSELoss. apply Nat.eqb_neq in Hne. rewrite Hne.
  destruct a as [| x [| x' a]]; destruct b as [| y [| y' b]];
    simpl in *; congruence.
Qed.

(** A single entry is compared with every entry of the other tensor. *)
Lemma MSELoss_broadcast (x : Q) (b : tensor1 Q) :
  length b <> 1%nat ->
  MSELoss [x] b
  = Ok (Qsum (map (fun y => (x - y) * (x - y)) b) / inject_Z (Z.of_nat (length b)))%Q.
Proof.
  intros Hb. unfold MSELoss.
  replace (length [x] =? length b)%nat with false
    by (symmetry; apply Nat.eqb_neq; simpl; congruence).
  do 3 f_equal. clear Hb. induction b as [| y b IH]; [reflexivity |].
  simpl. f_equal. exact IH.
Qed.

(** A mean of squares is never negative. *)
Lemma Qsum_squares_nonneg (a b : tensor1 Q) :
  (0 <= Qsum (zip_with (fun x y => (x - y) * (x - y)) a b))%Q.
Proof.
  unfold Qsum.
  revert b. induction a as [| x a IH]; intros [| y b]; cbn [zip_with fold_right];
    try apply Qle_refl.
  specialize (IH b).
  assert (Hsq : (0 <= (x - y) * (x - y))%Q).
  { destruct (Qlt_le_dec (x - y) 0) as [Hneg | Hpos].
    - apply Qle_trans with ((- (x - y)) * (- (x - y)))%Q.
      + apply Qmult_le_0_compat; lra.
      + apply Qle_lteq. right. ring.
    - apply Qmult_le_0_compat; exact Hpos. }
  lra.
Qed.

Lemma mean_squares_nonneg (a b : tensor1 Q) (n : nat) :
  (0 <= Qsum (zip_with (fun x y => (x - y) * (x - y)) a b) / inject_Z (Z.of_nat n))%Q.
Proof.
  pose proof (Qsum_squares_nonneg a b) as Hsum.
  destruct n as [| n].
  - unfold Qdiv. change (/ inject_Z (Z.of_nat 0))%Q with 0%Q. rewrite Qmult_0_r. apply Qle_refl.
  - apply Qle_shift_div_l; [reflexivity |]. rewrite Qmult_0_l. exact Hsum.
Qed.

Lemma MSELoss_cases (a b : tensor1 Q) :
  (exists a' b' n,
     MSELoss a b
     = Ok (Qsum (zip_with (fun x y => (x - y) * (x - y)) a' b') / inject_Z (Z.of_nat n))%Q)
  \/ MSELoss a b = Raise RuntimeError.
Proof.
  unfold MSELoss. destruct (length a =? length b)%nat; [left; eauto |].
  destruct a as [| x [| x' a]]; destruct b as [| y [| y' b]];
    first [right; reflexivity | left; do 3 eexists; reflexivity].
Qed.

Lemma MSELoss_nonneg (a b : tensor1 Q) (l : Q) : MSELoss a b = Ok l -> (0 <= l)%Q.
Proof.
  destruct (MSELoss_cases a b) as [(a' & b' & n & ->) | ->]; [| discriminate].
  intros Heq. injection Heq as <-. apply mean_squares_nonneg.
Qed.

(** C3: in every iteration of the physics-informed loop (fixed [D = 0.02])
    the total loss is the unweighted sum of exactly three terms, each its
    own mean-squared error: of the defect of [u_tt = D*(u_t)^2 - g] on the
    time grid, of the network output at [t = 0] against [H], and of the
    time-derivative at [t = 0] against 0; the iteration prints (when it
    prints) and minimises that sum. *)
Theorem total_loss_three_mse_terms
    (P : Type) (optimize : P -> result P) (differentiate : P -> result derivatives)
    (k : nat) (s : train_state P) (theta' : P) (d : derivatives) (x0 v0 : Q) :
  differentiate (theta s) = Ok d ->
  optimize (theta s) = Ok theta' ->
  length (u_tt d) = length (u_t d) -> u_zero d = [x0] -> u_t_zero d = [v0] ->
  exists l_ode l_pos l_speed : Q,
    loss_ode d = Ok l_ode
    /\ loss_initial_position d = Ok l_pos
    /\ loss_initial_speed d = Ok l_speed
    /\ total_loss d = Ok (l_ode + l_pos + l_speed)%Q
    /\ l_ode = (Qsum (zip_with (fun a v => ode_residual a v * ode_residual a v)
                               (u_tt d) (u_t d))
                / inject_Z (Z.of_nat (length (u_tt d))))%Q
    /\ (l_pos == (x0 - Params.H) * (x0 - Params.H))%Q
    /\ (l_speed == (v0 - 0) * (v0 - 0))%Q
    /\ Params.D = 0.02%Q
    /\ physics_body P optimize differentiate k s
       = Ok (TrainState theta'
               (if (k mod 250 =? 0)%nat || (k =? Params.train_iterations - 1)%nat
                then printed s ++ [(k, (l_ode + l_pos + l_speed)%Q)] else printed s)
               (S (iterations s))).
Proof.
  intros Hd Ho Hlen Hz Hvz.
  destruct (MSELoss_singleton x0 Params.H) as (l_pos & Hpos & Hposv).
  destruct (MSELoss_singleton v0 0) as (l_speed & Hspeed & Hspeedv).
  assert (Hode : loss_ode d
                 = Ok (Qsum (zip_with (fun a v => ode_residual a v * ode_residual a v)
                                      (u_tt d) (u_t d))
                       / inject_Z (Z.of_nat (length (u_tt d))))%Q).
  { unfold loss_ode. rewrite MSELoss_same_length by (rewrite length_map; exact Hlen).
    rewrite zip_with_fmap_r. reflexivity. }
  assert (Hp : loss_initial_position d = Ok l_pos)
    by (unfold loss_initial_position; rewrite Hz; exact Hpos).
  assert (Hs : loss_initial_speed d = Ok l_speed)
    by (unfold loss_initial_speed; rewrite Hvz; exact Hspeed).
  assert (Ht : total_loss d = Ok (_ + l_pos + l_speed)%Q)
    by (unfold total_loss; rewrite Hode, Hp, Hs; reflexivity).
  eexists. exists l_pos, l_speed.
  split; [exact Hode |]. split; [exact Hp |]. split; [exact Hs |].
  split; [exact Ht |]. split; [reflexivity |].
  split; [exact Hposv |]. split; [exact Hspeedv |]. split; [reflexivity |].
  unfold physics_body. rewrite Hd. cbn. rewrite Ht. cbn. rewrite Ho. reflexivity.
Qed.

Lemma total_loss_three_mse_terms_witness :
  sample_differentiate (theta sample_state) = Ok sample_derivatives
  /\ sample_optimize (theta sample_state) = Ok (1 / 2)%Q
  /\ length (u_tt sample_derivatives) = length (u_t sample_derivatives)
  /\ u_zero sample_derivatives = [49%Q]
  /\ u_t_zero sample_derivatives = [1%Q]
  /\ exists l_ode l_pos l_speed : Q,
    loss_ode sample_derivatives = Ok l_ode
    /\ loss_initial_position sample_derivatives = Ok l_pos
    /\ loss_initial_speed sample_derivatives = Ok l_speed
    /\ total_loss sample_derivatives = Ok (l_ode + l_pos + l_speed)%Q
    /\ l_ode = (Qsum (zip_with (fun a v => ode_residual a v * ode_residual a v)
                               (u_tt sample_derivatives) (u_t sample_derivatives))
                / inject_Z (Z.of_nat (length (u_tt sample_derivatives))))%Q
    /\ (l_pos == (49 - Params.H) * (49 - Params.H))%Q
    /\ (l_speed == (1 - 0) * (1 - 0))%Q
    /\ Params.D = 0.02%Q
    /\ physics_body Q sample_optimize sample_differentiate 250 sample_state
       = Ok (TrainState (1 / 2)%Q
               (if (250 mod 250 =? 0)%nat || (250 =? Params.train_iterations - 1)%nat
                then printed sample_state ++ [(250%nat, (l_ode + l_pos + l_speed)%Q)]
                else printed sample_state)
               (S (iterations sample_state))).
Proof.
  do 5 (split; [reflexivity |]).
  apply (total_loss_three_mse_terms Q sample_optimize sample_differentiate 250
           sample_state (1 / 2)%Q sample_derivatives 49 1);
    reflexivity.
Defined.

(** *** Training loops *)

Lemma bind_Ok {A B : Type} (r : result A) (k : A -> result B) (a : A) :
  r = Ok a -> (r ≫= k) = k a.
Proof. intros ->. reflexivity. Qed.



(** An exception in the body ends the loop with that exception. *)
Lemma for_each_raise {St : Type} (body : nat -> St -> result St) ks1 k ks2 s s1 e :
  for_each body ks1 s = Ok s1 -> body k s1 = Raise e ->
  for_each body (ks1 ++ k :: ks2) s = Raise e.
Proof.
  revert s. induction ks1 as [| k1 ks1 IH]; intros s Hpre Hk.
  - inversion Hpre; subst. cbn [app for_each]. rewrite Hk. reflexivity.
  - cbn [app for_each] in *. destruct (body k1 s) as [s2 | e2]; [| discriminate].
    cbn in *. apply IH; assumption.
Qed.



(** The physics-informed loop prints at every 250th iteration and at the
    last one, the data-driven loop at iteration 0 and at the end of every
    block of 250. *)
Example physics_loop_sample_run :
  run_summary (physics_loop Q sample_optimize sample_differentiate sample_state)
  = Some (5000, [0; 250; 500; 750; 1000; 1250; 1500; 1750; 2000; 2250; 2500; 2750;
                 3000; 3250; 3500; 3750; 4000; 4250; 4500; 4750; 4999])%nat.
Proof. vm_compute. reflexivity. Qed.

Example data_driven_loop_sample_run :
  run_summary (data_driven_loop Q sample_forward sample_loss_of sample_optimize sample_state)
  = Some (5000, [0; 249; 499; 749; 999; 1249; 1499; 1749; 1999; 2249; 2499; 2749;
                 2999; 3249; 3499; 3749; 3999; 4249; 4499; 4749; 4999])%nat.
Proof. vm_compute. reflexivity. Qed.

(** No retry: a step that raises ends the run. *)
Example raising_step_aborts :
  physics_loop Q (fun th => if Qle_bool th (1 # 8) then Raise RuntimeError else Ok (th / 2)%Q)
    sample_differentiate sample_state = Raise RuntimeError.
Proof. vm_compute. reflexivity. Qed.

(** *** Maxima

    [torch.max] folds a maximum over the entries; the fold returns an entry
    that bounds all the others, for any total order with a binary maximum. *)

Section FoldMax.
Context {A : Type} (le : A -> A -> Prop) (mx : A -> A -> A).
Hypothesis le_refl : forall a, le a a.
Hypothesis le_trans : forall a b c, le a b -> le b c -> le a c.
Hypothesis mx_choice : forall a b, mx a b = a \/ mx a b = b.
Hypothesis mx_l : forall a b, le a (mx a b).
Hypothesis mx_r : forall a b, le b (mx a b).

Lemma fold_left_max_ge_init l x : le x (fold_left mx l x).
Proof.
  revert x. induction l as [| y l IH]; intros x; simpl; [apply le_refl |].
  eapply le_trans; [apply (mx_l x y) | apply IH].
Qed.

Lemma fold_left_max_spec l x :
  In (fold_left mx l x) (x :: l) /\ forall y, In y (x :: l) -> le y (fold_left mx l x).
Proof.
  revert x. induction l as [| z l IH]; intros x.
  - simpl. split; [left; reflexivity |]. intros y [<- | []]. apply le_refl.
  - cbn [fold_left]. destruct (IH (mx x z)) as [Hin Hub]. split.
    + destruct Hin as [Heq | Hin].
      * rewrite <- Heq. destruct (mx_choice x z) as [-> | ->];
          [left; reflexivity | right; left; reflexivity].
      * right. right. exact Hin.
    + intros y [<- | [<- | Hy]].
      * eapply le_trans; [apply (mx_l x z) | apply fold_left_max_ge_init].
      * eapply le_trans; [apply (mx_r x z) | apply fold_left_max_ge_init].
      * apply Hub. right. exact Hy.
Qed.
End FoldMax.

Lemma Qmax_choice (a b : Q) : Qmax a b = a \/ Qmax a b = b.
Proof. unfold Qmax, GenericMinMax.gmax. destruct (a ?= b)%Q; auto. Qed.

Lemma torch_max_spec (l : list Q) :
  l <> [] ->
  exists m, torch_max l = Ok m /\ In m l /\ forall y, In y l -> (y <= m)%Q.
Proof.
  destruct l as [| x l]; [congruence |]. intros _.
  exists (fold_left Qmax l x). split; [reflexivity |].
  apply (fold_left_max_spec Qle Qmax Qle_refl Qle_trans Qmax_choice Q.le_max_l Q.le_max_r).
Qed.

Lemma Rmax_choice (a b : R) : Rmax a b = a \/ Rmax a b = b.
Proof. apply Rmax_case; auto. Qed.

Lemma torch_max_R_spec (l : list R) :
  l <> [] ->
  exists m, torch_max_R l = Ok m /\ In m l /\ forall y, In y l -> (y <= m)%R.
Proof.
  destruct l as [| x l]; [congruence |]. intros _.
  exists (fold_left Rmax l x). split; [reflexivity |].
  apply (fold_left_max_spec Rle Rmax Rle_refl Rle_trans Rmax_choice Rmax_l Rmax_r).
Qed.

Lemma In_flatten3 {A : Type} (T : tensor3 A) (x : A) :
  In x (flatten3 T) <-> exists i j l, lookup3 T i j l = Some x.
Proof.
  unfold flatten3, lookup3. rewrite in_concat. split.
  - intros (v & Hv & Hx). apply in_concat in Hv. destruct Hv as (M & HM & Hv).
    apply list_elem_of_In, list_elem_of_lookup in HM, Hv, Hx.
    destruct HM as [i Hi], Hv as [j Hj], Hx as [l Hl].
    exists i, j, l. rewrite Hi. simpl. rewrite Hj. simpl. exact Hl.
  - intros (i & j & l & H).
    destruct (T !! i) as [M |] eqn:HM; [| discriminate]. simpl in H.
    destruct (M !! j) as [v |] eqn:Hv; [| discriminate]. simpl in H.
    exists v. split.
    + apply in_concat. exists M. split; apply list_elem_of_In;
        eapply list_elem_of_lookup_2; eassumption.
    + apply list_elem_of_In. eapply list_elem_of_lookup_2; eassumption.
Qed.

Lemma lookup3_zip_with {A B C : Type} (f : A -> B -> C) a b i j l :
  lookup3 (zip_with (zip_with (zip_with f)) a b) i j l
  = (x ← lookup3 a i j l; y ← lookup3 b i j l; Some (f x y)).
Proof.
  unfold lookup3. rewrite lookup_zip_with.
  destruct (a !! i) as [M |]; [| reflexivity]. simpl.
  destruct (b !! i) as [N |]; simpl.
  - rewrite lookup_zip_with.
    destruct (M !! j) as [v |]; [| reflexivity]. simpl.
    destruct (N !! j) as [w |]; simpl.
    + rewrite lookup_zip_with. reflexivity.
    + destruct (v !! l); reflexivity.
  - destruct (M !! j) as [v |]; [| reflexivity]. simpl. destruct (v !! l); reflexivity.
Qed.

Lemma forallb_zip_lookup {A B : Type} (p : A * B -> bool) (a : list A) (b : list B) :
  forallb p (zip a b) = true <->
  forall i x y, a !! i = Some x -> b !! i = Some y -> p (x, y) = true.
Proof.
  rewrite forallb_forall. split.
  - intros Hall i x y Hx Hy. apply Hall. apply list_elem_of_In.
    apply (list_elem_of_lookup_2 _ i). apply lookup_zip_with_Some. eauto.
  - intros Hall [x y] Hin.
    apply list_elem_of_In, list_elem_of_lookup in Hin. destruct Hin as [i Hi].
    apply lookup_zip_with_Some in Hi. destruct Hi as (x' & y' & Heq & Hx & Hy).
    inversion Heq; subst. eapply Hall; eassumption.
Qed.

Lemma same_shape3_lookup {A B : Type} (a : tensor3 A) (b : tensor3 B) i j l y :
  same_shape3 a b = true -> lookup3 b i j l = Some y -> exists x, lookup3 a i j l = Some x.
Proof.
  unfold same_shape3, lookup3. rewrite andb_true_iff, Nat.eqb_eq, forallb_zip_lookup.
  intros [Hlen Hall] Hy.
  destruct (b !! i) as [N |] eqn:HN; [| discriminate]. simpl in Hy.
  destruct (N !! j) as [w |] eqn:Hw; [| discriminate]. simpl in Hy.
  destruct (lookup_lt_is_Some_2 a i) as [M HM].
  { rewrite Hlen. eapply lookup_lt_Some; eassumption. }
  specialize (Hall i M N HM HN). simpl in Hall.
  rewrite andb_true_iff, Nat.eqb_eq, forallb_zip_lookup in Hall.
  destruct Hall as [Hlen2 Hall2].
  destruct (lookup_lt_is_Some_2 M j) as [v Hv].
  { rewrite Hlen2. eapply lookup_lt_Some; eassumption. }
  specialize (Hall2 j v w Hv Hw). simpl in Hall2. apply Nat.eqb_eq in Hall2.
  destruct (lookup_lt_is_Some_2 v l) as [x Hx].
  { rewrite Hall2. eapply lookup_lt_Some; eassumption. }
  exists x. rewrite HM. simpl. rewrite Hv. simpl. exact Hx.
Qed.

(** C8: the accuracy check of the data-driven notebook reports one number,
    the largest absolute error over all test points divided by the largest
    test target; it is not the largest per-point relative error, which can
    be strictly larger. *)
Theorem relative_error_is_global_ratio (model_out output_testing : tensor3 Q) :
  same_shape3 model_out output_testing = true ->
  flatten3 output_testing <> [] ->
  (exists e_max o_max : Q,
    relative_error model_out output_testing = Ok (e_max / o_max)%Q
    /\ (exists i j l x y, lookup3 model_out i j l = Some x
                          /\ lookup3 output_testing i j l = Some y
                          /\ e_max = Qabs (x - y))
    /\ (forall i j l x y, lookup3 model_out i j l = Some x ->
                          lookup3 output_testing i j l = Some y ->
                          (Qabs (x - y) <= e_max)%Q)
    /\ (exists i j l, lookup3 output_testing i j l = Some o_max)
    /\ (forall i j l y, lookup3 output_testing i j l = Some y -> (y <= o_max)%Q))
  /\ (exists (a b : tensor3 Q) (r p : Q),
        relative_error a b = Ok r /\ per_point_relative_error a b = Ok p /\ (r < p)%Q).
Proof.
  intros Hshape Hne. split.
  - destruct (torch_max_spec _ Hne) as (o_max & Ho & Hoin & Houb).
    apply In_flatten3 in Hoin. destruct Hoin as (i0 & j0 & l0 & Ho0).
    destruct (same_shape3_lookup _ _ _ _ _ _ Hshape Ho0) as [x0 Hx0].
    set (error := zip_with (zip_with (zip_with (fun x y => Qabs (x - y)))) model_out output_testing).
    assert (Herr : abs_error model_out output_testing = Ok error).
    { unfold abs_error, elementwise3. rewrite Hshape. reflexivity. }
    assert (Hene : flatten3 error <> []).
    { intros Hnil. assert (Hin : In (Qabs (x0 - o_max)) (flatten3 error)).
      { apply In_flatten3. exists i0, j0, l0. unfold error.
        rewrite lookup3_zip_with, Hx0, Ho0. reflexivity. }
      rewrite Hnil in Hin. destruct Hin. }
    destruct (torch_max_spec _ Hene) as (e_max & He & Hein & Heub).
    exists e_max, o_max. split; [| split; [| split; [| split]]].
    + unfold relative_error. rewrite Herr. cbn. rewrite He. cbn. rewrite Ho. reflexivity.
    + apply In_flatten3 in Hein. destruct Hein as (i & j & l & Hl).
      unfold error in Hl. rewrite lookup3_zip_with in Hl.
      destruct (lookup3 model_out i j l) as [x |] eqn:Hx; [| discriminate].
      destruct (lookup3 output_testing i j l) as [y |] eqn:Hy; [| discriminate].
      exists i, j, l, x, y. inversion Hl. auto.
    + intros i j l x y Hx Hy. apply Heub. apply In_flatten3. exists i, j, l.
      unfold error. rewrite lookup3_zip_with, Hx, Hy. reflexivity.
    + exists i0, j0, l0. exact Ho0.
    + intros i j l y Hy. apply Houb. apply In_flatten3. eauto.
  - exists sample_model_out, sample_output_testing. do 2 eexists.
    split; [reflexivity |]. split; reflexivity.
Qed.

Lemma relative_error_is_global_ratio_witness :
  same_shape3 sample_model_out sample_output_testing = true
  /\ flatten3 sample_output_testing <> []
  /\ (exists e_max o_max : Q,
        relative_error sample_model_out sample_output_testing = Ok (e_max / o_max)%Q
        /\ (exists i j l x y, lookup3 sample_model_out i j l = Some x
                              /\ lookup3 sample_output_testing i j l = Some y
                              /\ e_max = Qabs (x - y))
        /\ (forall i j l x y, lookup3 sample_model_out i j l = Some x ->
                              lookup3 sample_output_testing i j l = Some y ->
                              (Qabs (x - y) <= e_max)%Q)
        /\ (exists i j l, lookup3 sample_output_testing i j l = Some o_max)
        /\ (forall i j l y, lookup3 sample_output_testing i j l = Some y -> (y <= o_max)%Q))
  /\ (exists (a b : tensor3 Q) (r p : Q),
        relative_error a b = Ok r /\ per_point_relative_error a b = Ok p /\ (r < p)%Q).
Proof.
  split; [reflexivity |]. split; [discriminate |].
  apply (relative_error_is_global_ratio sample_model_out sample_output_testing);
    [reflexivity | discriminate].
Defined.

(** *** The error plot of the parameterized notebook *)

Lemma setitem_in_range {A : Type} (l : list A) (i : nat) (x : A) :
  (i < length l)%nat -> setitem l (Z.of_nat i) x = Ok (<[i := x]> l).
Proof.
  intros Hi. unfold setitem. rewrite normalize_index_nonneg by lia.
  destruct (decide (Z.of_nat i < Z.of_nat (length l))%Z); [| lia].
  cbn. rewrite Nat2Z.id. reflexivity.
Qed.

(** A loop that writes entry [i] in iteration [i] fills the entries of its
    range and leaves the ones before it alone. *)
Lemma for_each_fill {A : Type} (f : nat -> result A) (len : nat) :
  forall (a : nat) (et : list A),
    (forall i, (a <= i < a + len)%nat -> exists v, f i = Ok v) ->
    (a + len <= length et)%nat ->
    exists et',
      for_each (fun i et => e ← f i; setitem et (Z.of_nat i) e) (seq a len) et = Ok et'
      /\ length et' = length et
      /\ (forall i, (a <= i < a + len)%nat -> exists v, f i = Ok v /\ et' !! i = Some v)
      /\ (forall i, (i < a)%nat -> et' !! i = et !! i).
Proof.
  induction len as [| len IH]; intros a et Hf Hlen.
  - exists et. split; [reflexivity |]. split; [reflexivity |]. split; [lia | reflexivity].
  - destruct (Hf a ltac:(lia)) as [v Hv].
    destruct (IH (S a) (<[a := v]> et)) as (et' & Hrun & Hl & Hnew & Hold).
    { intros i Hi. apply Hf. lia. }
    { rewrite length_insert. lia. }
    exists et'. split; [| split; [| split]].
    + cbn [seq for_each]. rewrite Hv. cbn. rewrite setitem_in_range by lia. cbn. exact Hrun.
    + rewrite Hl. apply length_insert.
    + intros i Hi. destruct (decide (i = a)) as [-> | Hne].
      * exists v. split; [exact Hv |]. rewrite Hold by lia.
        apply list_lookup_insert_eq. lia.
      * apply Hnew. lia.
    + intros i Hi. rewrite Hold by lia. apply list_lookup_insert_ne. lia.
Qed.

Lemma linspace_lookup (start stop : Q) (steps i : nat) :
  (i < steps)%nat ->
  linspace start stop steps !! i
  = Some (start + inject_Z (Z.of_nat i) * ((stop - start) / inject_Z (Z.of_nat (steps - 1))))%Q.
Proof.
  intros Hi. unfold linspace. rewrite list_lookup_fmap, lookup_seq_lt by exact Hi.
  reflexivity.
Qed.

Lemma length_linspace (start stop : Q) (steps : nat) : length (linspace start stop steps) = steps.
Proof. unfold linspace. rewrite length_map, length_seq. reflexivity. Qed.

Lemma k_tensor_lookup (i : nat) :
  (i < 50)%nat ->
  exists q, k_tensor !! i = Some q
            /\ (q == 2 * inject_Z (Z.of_nat i) / 49)%Q /\ (0 <= q <= 2)%Q.
Proof.
  intros Hi. eexists. split; [apply linspace_lookup; exact Hi |].
  change (inject_Z (Z.of_nat (50 - 1))) with 49%Q.
  assert (H0 : (0 <= inject_Z (Z.of_nat i))%Q).
  { change 0%Q with (inject_Z 0). rewrite <- Zle_Qle. lia. }
  assert (H49 : (inject_Z (Z.of_nat i) <= 49)%Q).
  { change 49%Q with (inject_Z 49). rewrite <- Zle_Qle. lia. }
  set (z := inject_Z (Z.of_nat i)) in *. clearbody z.
  assert (E : (0 + z * ((2.0 - 0) / 49) == z * (2 # 49))%Q) by field.
  split; [field | rewrite E; split; lra].
Qed.

(** The points of the plot sampler: 102 of them, the 100 of the grid
    strictly inside the interval and the right end among them. *)
Lemma length_inp_data_x (i : nat) : length (inp_data_x i) = 102%nat.
Proof. unfold inp_data_x. rewrite length_map. reflexivity. Qed.

Lemma inp_data_x_nonempty (i : nat) : inp_data_x i <> [].
Proof. intros H. apply (f_equal length) in H. rewrite length_inp_data_x in H. discriminate. Qed.

Lemma interval_grid_inside (x : R) :
  In x (map Q2R (interval_grid 0 1 100)) -> In x (inp_data_x 0) /\ (0 < x < 1)%R.
Proof.
  intros Hin. split.
  - unfold inp_data_x, plot_sampler_points. rewrite !map_app, !in_app_iff. auto.
  - apply in_map_iff in Hin as (p & <- & Hp).
    assert (Hall : forallb (fun p => negb (Qle_bool p 0) && negb (Qle_bool 1 p))
                     (interval_grid 0 1 100) = true) by (vm_compute; reflexivity).
    rewrite forallb_forall in Hall. specialize (Hall p Hp).
    apply andb_true_iff in Hall as [H0 H1].
    apply negb_true_iff in H0, H1.
    assert (Hp0 : (0 < p)%Q).
    { apply Qnot_le_lt. intros Hle. apply Qle_bool_iff in Hle. congruence. }
    assert (Hp1 : (p < 1)%Q).
    { apply Qnot_le_lt. intros Hle. apply Qle_bool_iff in Hle. congruence. }
    apply Qreals.Qlt_Rlt in Hp0, Hp1. rewrite RMicromega.Q2R_0 in Hp0.
    rewrite RMicromega.Q2R_1 in Hp1. lra.
Qed.

Lemma right_end_plotted : In 1%R (inp_data_x 0).
Proof.
  unfold inp_data_x, plot_sampler_points. rewrite !map_app, !in_app_iff.
  right. right. left. apply RMicromega.Q2R_1.
Qed.

Lemma sample_end_model_error (x k : R) :
  (0 <= x)%R -> Rabs (sample_end_model x k - exp (k * x)) = x.
Proof.
  intros Hx. unfold sample_end_model.
  replace (exp (k * x) + x - exp (k * x))%R with x by ring.
  apply Rabs_pos_eq. exact Hx.
Qed.

Section ParamEvaluationFacts.
Variable model : R -> R -> R.
Variable plot_points : nat -> list R.

Lemma max_error_spec (i : nat) (q : Q) :
  k_tensor !! i = Some q -> plot_points i <> [] ->
  exists e, max_error model plot_points i = Ok e
    /\ (exists x, In x (plot_points i) /\ e = Rabs (model x (Q2R q) - exp (Q2R q * x)))
    /\ (forall x, In x (plot_points i) -> (Rabs (model x (Q2R q) - exp (Q2R q * x)) <= e)%R).
Proof.
  intros Hq Hne. unfold max_error.
  destruct (getitem_in_range (map Q2R k_tensor) (Z.of_nat i)) as (k & Hk & ->).
  { rewrite length_map. apply lookup_lt_Some in Hq. lia. }
  rewrite Nat2Z.id, list_lookup_fmap, Hq in Hk. inversion Hk; subst k. cbn.
  destruct (torch_max_R_spec
              (map (fun x => Rabs (model x (Q2R q) - exp (Q2R q * x))) (plot_points i)))
    as (e & He & Hin & Hub).
  { destruct (plot_points i); [congruence | discriminate]. }
  exists e. split; [exact He |]. split.
  - apply in_map_iff in Hin. destruct Hin as (x & Hx & Hxin). exists x. auto.
  - intros x Hx. apply Hub. apply in_map_iff. exists x. auto.
Qed.

Lemma error_tensor_entries :
  (forall i, (i < 50)%nat -> plot_points i <> []) ->
  exists et,
    error_tensor model plot_points = Ok et
    /\ length et = 50%nat
    /\ forall i, (i < 50)%nat ->
         exists e, max_error model plot_points i = Ok e /\ et !! i = Some e.
Proof.
  intros Hpts.
  assert (Hlen : length k_tensor = 50%nat) by apply length_linspace.
  destruct (for_each_fill (max_error model plot_points) 50 0 (replicate 50 0%R))
    as (et & Hrun & Hl & Hnew & _).
  { intros i Hi. destruct (k_tensor_lookup i ltac:(lia)) as (q & Hq & _).
    destruct (max_error_spec i q Hq (Hpts i ltac:(lia))) as (e & He & _).
    eauto. }
  { rewrite length_replicate. lia. }
  exists et. split; [| split].
  - unfold error_tensor, for_range. rewrite Hlen. exact Hrun.
  - rewrite Hl. apply length_replicate.
  - intros i Hi. apply Hnew. lia.
Qed.

End ParamEvaluationFacts.

(** C5 (as stated, refuted): the maximum is not taken over 100 plot
    points.  The sampler returns 102 points in each iteration, and for a
    network whose error is largest at the right end of the interval
    [error_tensor[0]] is larger than the error at each of the 100 points
    of the grid. *)
Lemma error_tensor_not_over_100_points :
  length (inp_data_x 0) = 102%nat
  /\ length (interval_grid 0 1 100) = 100%nat
  /\ exists (et : tensor1 R) (e : R) (q : Q),
       error_tensor sample_end_model inp_data_x = Ok et
       /\ k_tensor !! 0%nat = Some q
       /\ et !! 0%nat = Some e
       /\ forall x, In x (map Q2R (interval_grid 0 1 100)) ->
            In x (inp_data_x 0)
            /\ (Rabs (sample_end_model x (Q2R q) - exp (Q2R q * x)) < e)%R.
Proof.
  split; [apply length_inp_data_x |]. split; [reflexivity |].
  destruct (error_tensor_entries sample_end_model inp_data_x) as (et & Hrun & _ & Hent).
  { intros i _. apply inp_data_x_nonempty. }
  destruct (Hent 0%nat ltac:(lia)) as (e & Hmax & He).
  destruct (k_tensor_lookup 0 ltac:(lia)) as (q & Hq & _).
  destruct (max_error_spec sample_end_model inp_data_x 0 q Hq (inp_data_x_nonempty 0))
    as (e' & Hmax' & _ & Hub).
  assert (Heq : e' = e) by congruence. rewrite Heq in Hub. clear Heq Hmax'.
  exists et, e, q. split; [exact Hrun |]. split; [exact Hq |]. split; [exact He |].
  intros x Hx. destruct (interval_grid_inside x Hx) as [Hin Hlt].
  split; [exact Hin |].
  pose proof (Hub 1%R right_end_plotted) as H1.
  rewrite sample_end_model_error in H1 by lra.
  rewrite sample_end_model_error by lra. lra.
Qed.

Section ErrorTensor.
Variable model : R -> R -> R.
Variable plot_points : nat -> list R.

(** C5 (amended): after the loop, for each of the 50 equidistant parameter
    values [k_i = 2*i/49] in [0, 2] (a grid of its own, not the training
    samples) [error_tensor[i]] is the maximum, over the plot points [x]
    that the sampler returns in iteration [i], of
    [|model(x, k_i) - e^(k_i * x)|]: it is attained at a plot point and
    bounds the error at every plot point.  The sampler, asked for
    [n_points=100] on the interval, returns 102 points in every iteration:
    the two ends and 100 points inside. *)
Theorem error_tensor_is_max_error :
  (forall i, (i < 50)%nat -> plot_points i <> []) ->
  (forall i, length (inp_data_x i) = 102%nat)
  /\ exists et,
    error_tensor model plot_points = Ok et
    /\ length et = 50%nat
    /\ forall i, (i < 50)%nat ->
       exists (q : Q) (e : R),
         k_tensor !! i = Some q
         /\ (q == 2 * inject_Z (Z.of_nat i) / 49)%Q /\ (0 <= q <= 2)%Q
         /\ et !! i = Some e
         /\ (exists x, In x (plot_points i)
                       /\ e = Rabs (model x (Q2R q) - exp (Q2R q * x)))
         /\ (forall x, In x (plot_points i) ->
                       (Rabs (model x (Q2R q) - exp (Q2R q * x)) <= e)%R).
Proof.
  intros Hpts. split; [exact length_inp_data_x |].
  destruct (error_tensor_entries model plot_points Hpts) as (et & Hrun & Hlen & Hent).
  exists et. split; [exact Hrun |]. split; [exact Hlen |].
  intros i Hi. destruct (k_tensor_lookup i Hi) as (q & Hq & Hqv & Hqr).
  destruct (max_error_spec model plot_points i q Hq (Hpts i Hi)) as (e & He & Hatt & Hub).
  destruct (Hent i Hi) as (e' & He' & Hlook).
  assert (Heq : e' = e) by congruence. rewrite Heq in Hlook.
  exists q, e. auto 10.
Qed.
End ErrorTensor.

Lemma error_tensor_is_max_error_witness :
  (forall i, (i < 50)%nat -> inp_data_x i <> [])
  /\ (forall i, length (inp_data_x i) = 102%nat)
  /\ exists et,
    error_tensor sample_param_model inp_data_x = Ok et
    /\ length et = 50%nat
    /\ forall i, (i < 50)%nat ->
       exists (q : Q) (e : R),
         k_tensor !! i = Some q
         /\ (q == 2 * inject_Z (Z.of_nat i) / 49)%Q /\ (0 <= q <= 2)%Q
         /\ et !! i = Some e
         /\ (exists x, In x (inp_data_x i)
                       /\ e = Rabs (sample_param_model x (Q2R q) - exp (Q2R q * x)))
         /\ (forall x, In x (inp_data_x i) ->
                       (Rabs (sample_param_model x (Q2R q) - exp (Q2R q * x)) <= e)%R).
Proof.
  split; [intros i _; apply inp_data_x_nonempty |].
  apply (error_tensor_is_max_error sample_param_model inp_data_x).
  intros i _. apply inp_data_x_nonempty.
Defined.

(** *** The dataset of the data-driven notebook *)

Lemma length_repeat_interleave {A : Type} (l : list A) (n : nat) :
  length (repeat_interleave l n) = (length l * n)%nat.
Proof.
  unfold repeat_interleave. induction l as [| x l IH]; [reflexivity |].
  cbn [map concat length]. rewrite length_app, length_replicate, IH. lia.
Qed.

Lemma chunks_repeat_interleave {A : Type} (l : list A) (n : nat) :
  chunks n (length l) (repeat_interleave l n) = map (replicate n) l.
Proof.
  unfold repeat_interleave. induction l as [| x l IH]; [reflexivity |].
  cbn [map concat length chunks].
  rewrite take_app_length', drop_app_length' by (rewrite length_replicate; reflexivity).
  rewrite IH. reflexivity.
Qed.

Lemma create_dataset_value (u : R -> R -> R) (D_values t_grid : list R) :
  create_dataset u D_values t_grid
  = Ok (map (fun d => map (fun t => [d; t]) t_grid) D_values,
        map (fun d => map (fun t => [u t d]) t_grid) D_values).
Proof.
  unfold create_dataset, reshape2.
  rewrite length_repeat_interleave, Nat.eqb_refl, chunks_repeat_interleave. cbn.
  rewrite !map_map. f_equal. f_equal.
  - apply map_ext. intros d. apply zip_with_replicate_l. reflexivity.
  - apply map_ext. intros d. rewrite zip_with_replicate_l by reflexivity.
    rewrite <- list_fmap_compose. reflexivity.
Qed.

Lemma select_last_pairs (d : R) (t_grid : list R) :
  select_last (map (fun t => [d; t]) t_grid) 1 = Some t_grid.
Proof.
  unfold select_last. apply mapM_Some.
  induction t_grid as [| t t_grid IH]; constructor; [reflexivity | exact IH].
Qed.

Lemma lookup2_map_map {A B C : Type} (f : A -> B -> C) (l : list A) (k : list B) i j a b :
  l !! i = Some a -> k !! j = Some b ->
  lookup2 (map (fun a => map (f a) k) l) i j = Some (f a b).
Proof.
  intros Ha Hb. unfold lookup2. rewrite list_lookup_fmap, Ha. cbn.
  rewrite list_lookup_fmap, Hb. reflexivity.
Qed.

Lemma D_min_R_val : Q2R Params.D_min = 0.01%R.
Proof. unfold Params.D_min, Q2R; simpl. lra. Qed.

Lemma D_max_R_val : Q2R Params.D_max = 1%R.
Proof. unfold Params.D_max, Q2R; simpl. lra. Qed.

Lemma training_t_grid_lookup (k : nat) :
  (k < Params.N_t_train)%nat ->
  exists q, linspace Params.t_min Params.t_max Params.N_t_train !! k = Some q
            /\ training_t_grid !! k = Some (Q2R q)
            /\ (q == 3 * inject_Z (Z.of_nat k) / 49)%Q.
Proof.
  intros Hk. eexists. split; [apply linspace_lookup; exact Hk |]. split.
  - unfold training_t_grid. rewrite list_lookup_fmap, linspace_lookup by exact Hk.
    reflexivity.
  - unfold Params.t_min, Params.t_max, Params.N_t_train.
    change (inject_Z (Z.of_nat (50 - 1))) with 49%Q. field.
Qed.

(** C2: with [N_D_train = 500] and [N_t_train = 50] the construction
    returns [input_training] of shape (500, 50, 2) and [output_training]
    of shape (500, 50, 1); [input_training[i, k]] is the pair [(D_i, t_k)],
    where [D_i] comes from the [i]-th random draw and lies in [0.01, 1.0]
    and [t_k = 3*k/49] is the [k]-th point of the equidistant grid over
    [0, 3]; [output_training[i, k]] is the closed form [u(t_k; D_i)]; and
    [input_training[i, :, 1]] is the same grid for every [i].  The draws
    are arbitrary numbers in [0, 1): their distribution is not part of the
    statement. *)
Theorem training_dataset_shape_and_content (draws : list R) :
  length draws = Params.N_D_train ->
  (forall r, In r draws -> (0 <= r < 1)%R) ->
  exists input_training output_training : tensor3 R,
    training_dataset draws = Ok (input_training, output_training)
    /\ has_shape3 Params.N_D_train Params.N_t_train 2 input_training
    /\ has_shape3 Params.N_D_train Params.N_t_train 1 output_training
    /\ Params.N_D_train = 500%nat /\ Params.N_t_train = 50%nat
    /\ (forall i k, (i < Params.N_D_train)%nat -> (k < Params.N_t_train)%nat ->
        exists (r D_i : R) (q : Q),
          draws !! i = Some r
          /\ D_i = (0.01 + (1.0 - 0.01) * r)%R /\ (0.01 <= D_i <= 1.0)%R
          /\ linspace 0.0 3.0 50 !! k = Some q
          /\ (q == 3 * inject_Z (Z.of_nat k) / 49)%Q
          /\ lookup2 input_training i k = Some [D_i; Q2R q]
          /\ lookup2 output_training i k = Some [u_closed_form D_i g_R H_R (Q2R q)])
    /\ (forall i, (i < Params.N_D_train)%nat ->
        exists row, input_training !! i = Some row
                    /\ select_last row 1 = Some training_t_grid).
Proof.
  intros Hlen Hdraws. unfold training_dataset. rewrite create_dataset_value.
  assert (HlenD : length (training_D_values draws) = Params.N_D_train).
  { unfold training_D_values. rewrite length_map. exact Hlen. }
  assert (Hlent : length training_t_grid = Params.N_t_train).
  { unfold training_t_grid. rewrite length_map. apply length_linspace. }
  do 2 eexists. split; [reflexivity |].
  split; [| split; [| split; [reflexivity | split; [reflexivity | split]]]].
  - split; [rewrite length_map; exact HlenD |].
    apply Forall_fmap, Forall_forall. intros d _. unfold compose.
    split; [rewrite length_map; exact Hlent |].
    apply Forall_fmap, Forall_forall. intros t _. reflexivity.
  - split; [rewrite length_map; exact HlenD |].
    apply Forall_fmap, Forall_forall. intros d _. unfold compose.
    split; [rewrite length_map; exact Hlent |].
    apply Forall_fmap, Forall_forall. intros t _. reflexivity.
  - intros i k Hi Hk.
    destruct (lookup_lt_is_Some_2 draws i) as [r Hr]; [rewrite Hlen; exact Hi |].
    destruct (training_t_grid_lookup k Hk) as (q & Hq & Hqt & Hqv).
    exists r, (0.01 + (1.0 - 0.01) * r)%R, q.
    assert (HD : training_D_values draws !! i = Some (0.01 + (1.0 - 0.01) * r)%R).
    { unfold training_D_values. rewrite list_lookup_fmap, Hr. cbn.
      rewrite D_min_R_val, D_max_R_val. f_equal. lra. }
    split; [exact Hr |]. split; [reflexivity |]. split.
    { assert (Hin : In r draws).
      { apply list_elem_of_In. eapply list_elem_of_lookup_2. exact Hr. }
      specialize (Hdraws r Hin). lra. }
    split; [exact Hq |]. split; [exact Hqv |]. split.
    + apply (lookup2_map_map (fun d t => [d; t])); assumption.
    + apply (lookup2_map_map (fun d t => [u_closed_form d g_R H_R t])); assumption.
  - intros i Hi.
    destruct (lookup_lt_is_Some_2 (training_D_values draws) i) as [d Hd];
      [rewrite HlenD; exact Hi |].
    eexists. split; [rewrite list_lookup_fmap, Hd; reflexivity |].
    apply select_last_pairs.
Qed.

Lemma training_dataset_shape_and_content_witness :
  length sample_draws = Params.N_D_train
  /\ (forall r, In r sample_draws -> (0 <= r < 1)%R)
  /\ exists input_training output_training : tensor3 R,
    training_dataset sample_draws = Ok (input_training, output_training)
    /\ has_shape3 Params.N_D_train Params.N_t_train 2 input_training
    /\ has_shape3 Params.N_D_train Params.N_t_train 1 output_training
    /\ Params.N_D_train = 500%nat /\ Params.N_t_train = 50%nat
    /\ (forall i k, (i < Params.N_D_train)%nat -> (k < Params.N_t_train)%nat ->
        exists (r D_i : R) (q : Q),
          sample_draws !! i = Some r
          /\ D_i = (0.01 + (1.0 - 0.01) * r)%R /\ (0.01 <= D_i <= 1.0)%R
          /\ linspace 0.0 3.0 50 !! k = Some q
          /\ (q == 3 * inject_Z (Z.of_nat k) / 49)%Q
          /\ lookup2 input_training i k = Some [D_i; Q2R q]
          /\ lookup2 output_training i k = Some [u_closed_form D_i g_R H_R (Q2R q)])
    /\ (forall i, (i < Params.N_D_train)%nat ->
        exists row, input_training !! i = Some row
                    /\ select_last row 1 = Some training_t_grid).
Proof.
  assert (Hlen : length sample_draws = Params.N_D_train) by apply length_replicate.
  assert (Hr : forall r, In r sample_draws -> (0 <= r < 1)%R).
  { intros r Hin. apply list_elem_of_In, elem_of_replicate in Hin.
    destruct Hin as [-> _]. lra. }
  split; [exact Hlen |]. split; [exact Hr |].
  apply (training_dataset_shape_and_content sample_draws Hlen Hr).
Defined.

(** *** Reading back what was written *)

Ltac run_bind := cbn [mbind result_bind bind].
Ltac run_bind_in H := cbn [mbind result_bind bind] in H.


Lemma normalize_index_lt (len : nat) (i : Z) (p : nat) :
  normalize_index len i = Ok p -> (p < len)%nat.
Proof.
  unfold normalize_index.
  destruct ((0 <=? i) && (i <? Z.of_nat len))%Z eqn:Hpos.
  - intros H. inversion H; subst. apply andb_true_iff in Hpos as [H1 H2].
    apply Z.leb_le in H1. apply Z.ltb_lt in H2. lia.
  - destruct ((- Z.of_nat len <=? i) && (i <? 0))%Z eqn:Hneg; [| discriminate].
    intros H. inversion H; subst. apply andb_true_iff in Hneg as [H1 H2].
    apply Z.leb_le in H1. apply Z.ltb_lt in H2. lia.
Qed.

Lemma normalize_index_Raise (len : nat) (i : Z) (e : exn) :
  normalize_index len i = Raise e -> e = IndexError.
Proof.
  unfold normalize_index.
  destruct ((0 <=? i) && (i <? Z.of_nat len))%Z; [discriminate |].
  destruct ((- Z.of_nat len <=? i) && (i <? 0))%Z; [discriminate |].
  intros H. inversion H. reflexivity.
Qed.

Lemma getitem_Ok {A : Type} (l : list A) (i : Z) (a : A) :
  getitem l i = Ok a <-> exists p, normalize_index (length l) i = Ok p /\ l !! p = Some a.
Proof.
  unfold getitem. destruct (normalize_index (length l) i) as [p | e] eqn:Hn; cbn.
  - destruct (l !! p) as [b |] eqn:Hb.
    + split; [intros H; inversion H; subst; eauto |].
      intros (q & Hq & Hl). inversion Hq; subst. congruence.
    + split; [discriminate |]. intros (q & Hq & Hl). inversion Hq; subst. congruence.
  - split; [discriminate |]. intros (q & Hq & _). discriminate.
Qed.

Lemma getitem_Raise {A : Type} (l : list A) (i : Z) (e : exn) :
  getitem l i = Raise e <-> normalize_index (length l) i = Raise e.
Proof.
  unfold getitem. destruct (normalize_index (length l) i) as [p | e'] eqn:Hn; cbn.
  - apply normalize_index_lt in Hn.
    destruct (lookup_lt_is_Some_2 l p Hn) as [a ->]. split; discriminate.
  - split; intros H; inversion H; reflexivity.
Qed.

(** X1: when [T[i, j, k]] can be read (negative indices included), the
    assignment [T[i, j, k] = x] succeeds, reading the same index afterwards
    returns [x], and the shape of the tensor is unchanged. *)
Theorem setitem3_read_back {A : Type} (T : tensor3 A) (i j k : Z) (x y : A) :
  getitem3 T i j k = Ok y ->
  exists T', setitem3 T i j k x = Ok T'
             /\ getitem3 T' i j k = Ok x
             /\ forall n m l, has_shape3 n m l T -> has_shape3 n m l T'.
Proof.
  unfold getitem3, setitem3. intros Hget.
  destruct (getitem T i) as [M |] eqn:HM; [| discriminate]. run_bind_in Hget.
  destruct (getitem M j) as [v |] eqn:Hv; [| discriminate]. run_bind_in Hget.
  destruct (proj1 (getitem_Ok _ _ _) HM) as (pi & Hpi & HMl).
  destruct (proj1 (getitem_Ok _ _ _) Hv) as (pj & Hpj & Hvl).
  apply getitem_Ok in Hget as (pk & Hpk & Hyl).
  pose proof (normalize_index_lt _ _ _ Hpi) as Hlti.
  pose proof (normalize_index_lt _ _ _ Hpj) as Hltj.
  pose proof (normalize_index_lt _ _ _ Hpk) as Hltk.
  rewrite Hpi. run_bind. rewrite Hpj. run_bind. rewrite Hv. run_bind. rewrite Hpk. run_bind.
  eexists. split; [reflexivity |]. split.
  - assert (H1 : getitem (<[pi:=<[pj:=<[pk:=x]> v]> M]> T) i = Ok (<[pj:=<[pk:=x]> v]> M)).
    { apply getitem_Ok. exists pi. rewrite length_insert. split; [exact Hpi |].
      apply list_lookup_insert_eq. exact Hlti. }
    rewrite H1. run_bind.
    assert (H2 : getitem (<[pj:=<[pk:=x]> v]> M) j = Ok (<[pk:=x]> v)).
    { apply getitem_Ok. exists pj. rewrite length_insert. split; [exact Hpj |].
      apply list_lookup_insert_eq. exact Hltj. }
    rewrite H2. run_bind. apply getitem_Ok. exists pk. rewrite length_insert.
    split; [exact Hpk |]. apply list_lookup_insert_eq. exact Hltk.
  - intros n m l [Hn HT]. split; [rewrite length_insert; exact Hn |].
    rewrite Forall_lookup in HT. destruct (HT _ _ HMl) as [Hm HMs].
    apply Forall_insert; [apply Forall_lookup; exact HT |].
    split; [rewrite length_insert; exact Hm |].
    rewrite Forall_lookup in HMs. pose proof (HMs _ _ Hvl) as Hl.
    apply Forall_insert; [apply Forall_lookup; exact HMs |].
    rewrite length_insert. exact Hl.
Qed.

(** X2: when reading [T[i, j, k]] raises, the assignment [T[i, j, k] = x]
    raises the same exception, an [IndexError]; the tensor is not touched. *)
Theorem setitem3_raises_like_getitem3 {A : Type} (T : tensor3 A) (i j k : Z)
    (x : A) (e : exn) :
  getitem3 T i j k = Raise e -> setitem3 T i j k x = Raise e /\ e = IndexError.
Proof.
  unfold getitem3, setitem3. intros Hget.
  destruct (getitem T i) as [M | e1] eqn:HM; run_bind_in Hget.
  - apply getitem_Ok in HM as (pi & Hpi & HMl). rewrite Hpi. run_bind.
    destruct (getitem M j) as [v | e2] eqn:Hv; run_bind_in Hget.
    + apply getitem_Ok in Hv as (pj & Hpj & Hvl). rewrite Hpj. run_bind.
      apply getitem_Raise in Hget. rewrite Hget. run_bind.
      split; [reflexivity | eapply normalize_index_Raise; eassumption].
    + inversion Hget; subst e2. apply getitem_Raise in Hv. rewrite Hv. run_bind.
      split; [reflexivity | eapply normalize_index_Raise; eassumption].
  - inversion Hget; subst e1. apply getitem_Raise in HM. rewrite HM. run_bind.
    split; [reflexivity | eapply normalize_index_Raise; eassumption].
Qed.

(** X3: an assignment [T[i, j, k] = x] changes one entry: the tensor after
    it holds [x] at one position and agrees with the old tensor at every
    other position. *)
Theorem setitem3_frame {A : Type} (T T' : tensor3 A) (i j k : Z) (x : A) :
  setitem3 T i j k x = Ok T' ->
  exists pi pj pk,
    lookup3 T' pi pj pk = Some x
    /\ forall p q r, (p, q, r) <> (pi, pj, pk) -> lookup3 T' p q r = lookup3 T p q r.
Proof.
  unfold setitem3. intros Hset.
  destruct (normalize_index (length T) i) as [pi |] eqn:Hpi; [| discriminate]. run_bind_in Hset.
  destruct (getitem T i) as [M |] eqn:HM; [| discriminate]. run_bind_in Hset.
  destruct (normalize_index (length M) j) as [pj |] eqn:Hpj; [| discriminate]. run_bind_in Hset.
  destruct (getitem M j) as [v |] eqn:Hv; [| discriminate]. run_bind_in Hset.
  destruct (normalize_index (length v) k) as [pk |] eqn:Hpk; [| discriminate]. run_bind_in Hset.
  inversion Hset; subst T'; clear Hset.
  apply getitem_Ok in HM as (pi' & Hpi' & HMl). rewrite Hpi in Hpi'. inversion Hpi'; subst pi'.
  apply getitem_Ok in Hv as (pj' & Hpj' & Hvl). rewrite Hpj in Hpj'. inversion Hpj'; subst pj'.
  pose proof (normalize_index_lt _ _ _ Hpi) as Hlti.
  pose proof (normalize_index_lt _ _ _ Hpj) as Hltj.
  pose proof (normalize_index_lt _ _ _ Hpk) as Hltk.
  exists pi, pj, pk. split.
  - unfold lookup3. rewrite list_lookup_insert_eq by exact Hlti. simpl.
    rewrite list_lookup_insert_eq by exact Hltj. simpl.
    apply list_lookup_insert_eq. exact Hltk.
  - intros p q r Hne. unfold lookup3.
    destruct (decide (p = pi)) as [-> | Hp];
      [| rewrite list_lookup_insert_ne by congruence; reflexivity].
    rewrite list_lookup_insert_eq by exact Hlti. rewrite HMl. simpl.
    destruct (decide (q = pj)) as [-> | Hq];
      [| rewrite list_lookup_insert_ne by congruence; reflexivity].
    rewrite list_lookup_insert_eq by exact Hltj. rewrite Hvl. simpl.
    apply list_lookup_insert_ne. congruence.
Qed.

(** *** Slices *)

Lemma dim2_shape {A : Type} (n m k : nat) (T : tensor3 A) :
  has_shape3 n m k T -> (0 < n)%nat -> dim2 T = m.
Proof.
  intros [Hn HT] Hpos. unfold dim2. destruct T as [| M T]; [simpl in Hn; lia |].
  simpl. inversion HT as [| ? ? [Hm _] _]. exact Hm.
Qed.

Lemma dim3_shape {A : Type} (n m k : nat) (T : tensor3 A) :
  has_shape3 n m k T -> (0 < n)%nat -> (0 < m)%nat -> dim3 T = k.
Proof.
  intros [Hn HT] Hn0 Hm0. unfold dim3. destruct T as [| M T]; [simpl in Hn; lia |].
  simpl. inversion HT as [| ? ? [Hm HM] _]. destruct M as [| v M]; [simpl in Hm; lia |].
  simpl. inversion HM. assumption.
Qed.

Lemma index_check_cases (len : nat) (ix : index) :
  index_check len ix = Ok tt \/ index_check len ix = Raise IndexError.
Proof.
  destruct ix as [i | |]; [| left; reflexivity ..]. unfold index_check.
  destruct (normalize_index len i) as [p | e] eqn:Hn; [left; reflexivity |].
  right. rewrite (normalize_index_Raise _ _ _ Hn). reflexivity.
Qed.

Lemma lookup3_imap {A : Type} (g : nat -> nat -> nat -> A -> A) (T : tensor3 A) i j l :
  lookup3 (imap (fun i M => imap (fun j v => imap (fun l x => g i j l x) v) M) T) i j l
  = g i j l <$> lookup3 T i j l.
Proof.
  unfold lookup3. rewrite list_lookup_imap.
  destruct (T !! i) as [M |]; [| reflexivity]. simpl. rewrite list_lookup_imap.
  destruct (M !! j) as [v |]; [| reflexivity]. simpl. apply list_lookup_imap.
Qed.

Lemma has_shape3_imap {A : Type} (g : nat -> nat -> nat -> A -> A) n m k
    (T : tensor3 A) :
  has_shape3 n m k T ->
  has_shape3 n m k (imap (fun i M => imap (fun j v => imap (fun l x => g i j l x) v) M) T).
Proof.
  intros [Hn HT]. split; [rewrite length_imap; exact Hn |].
  apply Forall_lookup. intros i M' HM'. apply list_lookup_imap_Some in HM' as (M & HM & ->).
  rewrite Forall_lookup in HT. destruct (HT _ _ HM) as [Hm HMs].
  split; [rewrite length_imap; exact Hm |].
  apply Forall_lookup. intros j v' Hv'. apply list_lookup_imap_Some in Hv' as (v & Hv & ->).
  rewrite Forall_lookup in HMs. rewrite length_imap. exact (HMs _ _ Hv).
Qed.

Lemma update_slice_ok {A : Type} (f : nat -> A -> A) (T : tensor3 A)
    (ix jx kx : index) (n m k : nat) :
  has_shape3 n m k T -> (0 < n)%nat -> (0 < m)%nat ->
  index_check n ix = Ok tt -> index_check m jx = Ok tt -> index_check k kx = Ok tt ->
  exists T', update_slice f T ix jx kx = Ok T'
    /\ has_shape3 n m k T'
    /\ forall i j l,
         lookup3 T' i j l
         = (fun x => if selects n ix i && selects m jx j && selects k kx l
                     then f i x else x) <$> lookup3 T i j l.
Proof.
  intros HT Hn0 Hm0 Hi Hj Hk. unfold update_slice.
  rewrite (dim2_shape n m k T HT Hn0), (dim3_shape n m k T HT Hn0 Hm0).
  rewrite (proj1 HT), Hi, Hj, Hk. run_bind. eexists. split; [reflexivity |]. split.
  - apply (has_shape3_imap
             (fun i j l x => if selects n ix i && selects m jx j && selects k kx l
                             then f i x else x)). exact HT.
  - intros i j l.
    apply (lookup3_imap
             (fun i j l x => if selects n ix i && selects m jx j && selects k kx l
                             then f i x else x)).
Qed.

Lemma update_slice_index_error {A : Type} (f : nat -> A -> A) (T : tensor3 A)
    (ix jx kx : index) (n m k : nat) :
  has_shape3 n m k T -> (0 < n)%nat -> (0 < m)%nat ->
  ~ (index_check n ix = Ok tt /\ index_check m jx = Ok tt /\ index_check k kx = Ok tt) ->
  update_slice f T ix jx kx = Raise IndexError.
Proof.
  intros HT Hn0 Hm0 Hbad. unfold update_slice.
  rewrite (dim2_shape n m k T HT Hn0), (dim3_shape n m k T HT Hn0 Hm0).
  rewrite (proj1 HT).
  destruct (index_check_cases n ix) as [H1 | H1]; rewrite H1; [| reflexivity]. run_bind.
  destruct (index_check_cases m jx) as [H2 | H2]; rewrite H2; [| reflexivity]. run_bind.
  destruct (index_check_cases k kx) as [H3 | H3]; rewrite H3; [| reflexivity].
  exfalso. apply Hbad. auto.
Qed.

(** The checks and the selection of the code agree with the meaning of an
    index on positions. *)
Lemma index_check_valid (len : nat) (ix : index) :
  index_check len ix = Ok tt <-> index_valid len ix.
Proof.
  destruct ix as [i | | c]; simpl; [| tauto ..].
  unfold normalize_index.
  destruct ((0 <=? i) && (i <? Z.of_nat len))%Z eqn:Hpos.
  - apply andb_true_iff in Hpos as [H1 H2]. apply Z.leb_le in H1. apply Z.ltb_lt in H2.
    simpl. split; [lia | reflexivity].
  - destruct ((- Z.of_nat len <=? i) && (i <? 0))%Z eqn:Hneg.
    + apply andb_true_iff in Hneg as [H1 H2]. apply Z.leb_le in H1. apply Z.ltb_lt in H2.
      simpl. split; [lia | reflexivity].
    + simpl. split; [discriminate |]. intros [Hlo Hhi]. exfalso.
      apply andb_false_iff in Hpos, Hneg.
      rewrite Z.leb_gt, Z.ltb_ge in Hpos. rewrite Z.leb_gt, Z.ltb_ge in Hneg. lia.
Qed.

Lemma selects_addressed (len : nat) (ix : index) (p : nat) :
  (p < len)%nat -> index_valid len ix ->
  selects len ix p = true <-> addressed len ix p.
Proof.
  intros Hp Hv. destruct ix as [i | | c]; simpl in *; [| tauto |].
  - unfold normalize_index.
    destruct ((0 <=? i) && (i <? Z.of_nat len))%Z eqn:Hpos.
    + apply andb_true_iff in Hpos as [H1 H2]. apply Z.leb_le in H1. apply Z.ltb_lt in H2.
      rewrite Nat.eqb_eq. lia.
    + destruct ((- Z.of_nat len <=? i) && (i <? 0))%Z eqn:Hneg.
      * apply andb_true_iff in Hneg as [H1 H2]. apply Z.leb_le in H1. apply Z.ltb_lt in H2.
        rewrite Nat.eqb_eq. lia.
      * exfalso. apply andb_false_iff in Hpos, Hneg.
        rewrite Z.leb_gt, Z.ltb_ge in Hpos. rewrite Z.leb_gt, Z.ltb_ge in Hneg. lia.
  - rewrite Nat.ltb_lt. unfold slice_stop.
    destruct (c <? 0)%Z eqn:Hc; [apply Z.ltb_lt in Hc | apply Z.ltb_ge in Hc]; lia.
Qed.

Lemma lookup3_lt {A : Type} (n m k : nat) (T : tensor3 A) i j l x :
  has_shape3 n m k T -> lookup3 T i j l = Some x -> (i < n)%nat /\ (j < m)%nat /\ (l < k)%nat.
Proof.
  intros [Hn HT] Hx. unfold lookup3 in Hx.
  destruct (T !! i) as [M |] eqn:HM; [| discriminate]. simpl in Hx.
  destruct (M !! j) as [v |] eqn:Hv; [| discriminate]. simpl in Hx.
  rewrite Forall_lookup in HT. destruct (HT _ _ HM) as [Hm HMs].
  rewrite Forall_lookup in HMs. pose proof (HMs _ _ Hv) as Hk.
  apply lookup_lt_Some in HM, Hv, Hx. lia.
Qed.

(** X4: on a tensor of shape (n, m, k) with [n, m > 0] an in-place update
    through an index expression (integers, [:] and [:c]) raises
    [IndexError] exactly when one of its integers lies outside
    [-len .. len - 1] for its axis; otherwise it keeps the shape, applies
    the update to the entries whose position is addressed on all three
    axes (an integer addresses position [i], or [len + i] when negative;
    [:] every position; [:c] the positions below [c], or below [len + c]
    when [c] is negative) and leaves every other entry as it was. *)
Theorem update_slice_spec {A : Type} (f : nat -> A -> A) (T : tensor3 A)
    (ix jx kx : index) (n m k : nat) :
  has_shape3 n m k T -> (0 < n)%nat -> (0 < m)%nat ->
  (index_valid n ix /\ index_valid m jx /\ index_valid k kx ->
   exists T', update_slice f T ix jx kx = Ok T'
     /\ has_shape3 n m k T'
     /\ forall i j l x, lookup3 T i j l = Some x ->
          (addressed n ix i /\ addressed m jx j /\ addressed k kx l ->
           lookup3 T' i j l = Some (f i x))
          /\ (~ (addressed n ix i /\ addressed m jx j /\ addressed k kx l) ->
              lookup3 T' i j l = Some x))
  /\ (~ (index_valid n ix /\ index_valid m jx /\ index_valid k kx) ->
      update_slice f T ix jx kx = Raise IndexError).
Proof.
  intros HT Hn0 Hm0. split.
  - intros (Hi & Hj & Hk).
    destruct (update_slice_ok f T ix jx kx n m k HT Hn0 Hm0) as (T' & Hrun & Hs & Hl);
      [apply index_check_valid; assumption ..|].
    exists T'. split; [exact Hrun |]. split; [exact Hs |].
    intros i j l x Hx. destruct (lookup3_lt n m k T i j l x HT Hx) as (Hin & Hjm & Hlk).
    rewrite Hl, Hx. simpl.
    pose proof (selects_addressed n ix i Hin Hi) as Si.
    pose proof (selects_addressed m jx j Hjm Hj) as Sj.
    pose proof (selects_addressed k kx l Hlk Hk) as Sl.
    destruct (selects n ix i), (selects m jx j), (selects k kx l); simpl;
      split; intros Ha; try reflexivity; exfalso; intuition congruence.
  - intros Hbad. apply (update_slice_index_error f T ix jx kx n m k HT Hn0 Hm0).
    rewrite !index_check_valid. exact Hbad.
Qed.

Lemma Qeq3_lookup (n m k : nat) (a b : tensor3 Q) :
  has_shape3 n m k a -> has_shape3 n m k b ->
  (forall i j l x y, lookup3 a i j l = Some x -> lookup3 b i j l = Some y -> (x == y)%Q) ->
  Qeq3 a b.
Proof.
  intros [Hna Ha] [Hnb Hb] Hall. unfold Qeq3.
  apply Forall2_same_length_lookup_2; [congruence |].
  intros i Ma Mb HMa HMb.
  rewrite Forall_lookup in Ha, Hb.
  destruct (Ha _ _ HMa) as [Hma Hva]. destruct (Hb _ _ HMb) as [Hmb Hvb].
  apply Forall2_same_length_lookup_2; [congruence |].
  intros j va vb Hva' Hvb'.
  rewrite Forall_lookup in Hva, Hvb.
  apply Forall2_same_length_lookup_2; [rewrite (Hva _ _ Hva'), (Hvb _ _ Hvb'); reflexivity |].
  intros l x y Hx Hy. apply (Hall i j l).
  - unfold lookup3. rewrite HMa. simpl. rewrite Hva'. simpl. exact Hx.
  - unfold lookup3. rewrite HMb. simpl. rewrite Hvb'. simpl. exact Hy.
Qed.

(** X5: in-place products on the same index expression compose: after
    [T[..] *= c] and [T[..] *= c'] with [c * c' = 1] (as for [*= -1] twice)
    every entry of the tensor has its old value again. *)
Theorem imul_slice_inverse (c c' : Q) (T : tensor3 Q) (ix jx kx : index)
    (n m k : nat) :
  has_shape3 n m k T -> (0 < n)%nat -> (0 < m)%nat ->
  index_check n ix = Ok tt -> index_check m jx = Ok tt -> index_check k kx = Ok tt ->
  (c * c' == 1)%Q ->
  exists T1 T2,
    imul_slice c T ix jx kx = Ok T1
    /\ imul_slice c' T1 ix jx kx = Ok T2
    /\ Qeq3 T2 T.
Proof.
  intros HT Hn0 Hm0 Hi Hj Hk Hc. unfold imul_slice.
  destruct (update_slice_ok (fun _ x => (x * c)%Q) T ix jx kx n m k HT Hn0 Hm0 Hi Hj Hk)
    as (T1 & H1 & Hs1 & Hl1).
  destruct (update_slice_ok (fun _ x => (x * c')%Q) T1 ix jx kx n m k Hs1 Hn0 Hm0 Hi Hj Hk)
    as (T2 & H2 & Hs2 & Hl2).
  exists T1, T2. split; [exact H1 |]. split; [exact H2 |].
  apply (Qeq3_lookup n m k); [exact Hs2 | exact HT |].
  intros i j l x y Hx Hy. rewrite Hl2, Hl1, Hy in Hx. simpl in Hx.
  inversion Hx; subst x; clear Hx.
  destruct (selects n ix i && selects m jx j && selects k kx l); [| reflexivity].
  rewrite <- Qmult_assoc, Hc. ring.
Qed.

(** *** Boolean masks *)

Lemma mask_entries_sublist {A : Type} (mask : list bool) (T : list A) :
  omap (fun p : bool * A => if fst p then Some (snd p) else None) (zip mask T)
    `sublist_of` T
  /\ (length mask = length T ->
      length (omap (fun p : bool * A => if fst p then Some (snd p) else None) (zip mask T))
      = length (List.filter (fun b : bool => b) mask)).
Proof.
  revert T. induction mask as [| b mask IH]; intros [| x T]; simpl.
  - split; [constructor | reflexivity].
  - split; [apply sublist_nil_l | discriminate].
  - split; [constructor | discriminate].
  - destruct (IH T) as [Hsub Hlen]. destruct b; simpl.
    + split; [apply sublist_skip; exact Hsub | intros H; f_equal; apply Hlen; lia].
    + split; [apply sublist_cons; exact Hsub | intros H; apply Hlen; lia].
Qed.

(** X6: indexing with a list of booleans as long as the first axis
    returns the entries at the positions holding [True], in their order:
    as many as there are [True]s, and an entry is returned exactly when it
    sits at such a position.  The empty list selects nothing, whatever the
    size of the axis; any other list of another length raises
    [IndexError]. *)
Theorem mask_select_spec {A : Type} (mask : list bool) (T : list A) :
  (length mask = length T \/ mask = [] ->
   exists r, mask_select mask T = Ok r
     /\ r `sublist_of` T
     /\ length r = length (List.filter (fun b : bool => b) mask)
     /\ forall x, x ∈ r <-> exists i, mask !! i = Some true /\ T !! i = Some x)
  /\ (mask <> [] -> length mask <> length T -> mask_select mask T = Raise IndexError).
Proof.
  split.
  - intros Hlen.
    destruct mask as [| b mask].
    { exists []. split; [reflexivity |]. split; [apply sublist_nil_l |].
      split; [reflexivity |]. intros x. split.
      - intros Hin. inversion Hin.
      - intros (i & Hi & _). rewrite lookup_nil in Hi. discriminate. }
    destruct Hlen as [Hlen | Hnil]; [| discriminate].
    unfold mask_select. rewrite Hlen, Nat.eqb_refl. eexists. split; [reflexivity |].
    destruct (mask_entries_sublist (b :: mask) T) as [Hsub Hl].
    split; [exact Hsub |]. split; [apply Hl; exact Hlen |].
    intros x. rewrite list_elem_of_omap. split.
    + intros ([c y] & Hin & Hsel). apply list_elem_of_lookup in Hin as [i Hi].
      apply lookup_zip_with_Some in Hi as (b' & y' & Heq & Hb & Hy).
      inversion Heq; subst b' y'. simpl in Hsel. destruct c; [| discriminate].
      inversion Hsel; subst y. eauto.
    + intros (i & Hb & Hx). exists (true, x). split; [| reflexivity].
      apply (list_elem_of_lookup_2 _ i). apply lookup_zip_with_Some. eauto.
  - intros Hne Hlen. destruct mask as [| b mask]; [congruence |].
    unfold mask_select. apply Nat.eqb_neq in Hlen. rewrite Hlen. reflexivity.
Qed.

(** *** Reshaping *)

Lemma chunks_spec {A : Type} (m n : nat) (flat : list A) :
  length flat = (n * m)%nat ->
  concat (chunks m n flat) = flat
  /\ length (chunks m n flat) = n
  /\ Forall (fun row => length row = m) (chunks m n flat).
Proof.
  revert flat. induction n as [| n IH]; intros flat Hlen.
  - destruct flat; [| discriminate]. simpl. repeat split. constructor.
  - cbn [chunks concat length].
    destruct (IH (drop m flat)) as (Hc & Hl & Hf).
    { rewrite length_drop, Hlen. simpl. lia. }
    rewrite Hc, Hl, take_drop. split; [reflexivity |]. split; [reflexivity |].
    constructor; [| exact Hf]. rewrite length_take, Hlen. simpl. lia.
Qed.

(** X7: [reshape(n, m)] succeeds exactly when the tensor has [n * m]
    entries; the result has [n] rows of [m] entries and holds the same
    entries in the same order; otherwise it raises. *)
Theorem reshape2_spec {A : Type} (flat : list A) (n m : nat) :
  (length flat = (n * m)%nat ->
   exists M, reshape2 flat n m = Ok M
     /\ concat M = flat
     /\ length M = n
     /\ Forall (fun row => length row = m) M)
  /\ (length flat <> (n * m)%nat -> reshape2 flat n m = Raise RuntimeError).
Proof.
  unfold reshape2. split.
  - intros Hlen. rewrite Hlen, Nat.eqb_refl. eexists. split; [reflexivity |].
    apply chunks_spec. exact Hlen.
  - intros Hne. apply Nat.eqb_neq in Hne. rewrite Hne. reflexivity.
Qed.

Lemma chunks_concat_rows {A : Type} (w : nat) (rows : list (list A)) :
  Forall (fun row => length row = w) rows ->
  chunks w (length rows) (concat rows) = rows.
Proof.
  induction 1 as [| row rows Hrow _ IH]; [reflexivity |].
  cbn [length concat chunks].
  rewrite take_app_length', drop_app_length' by (symmetry; exact Hrow).
  rewrite IH. reflexivity.
Qed.

Lemma concat_concat_map {A : Type} (T : tensor3 A) :
  concat (concat T) = concat (map (@concat A) T).
Proof.
  induction T as [| M T IH]; [reflexivity |].
  cbn [concat map]. rewrite concat_app, IH. reflexivity.
Qed.

Lemma length_concat_uniform {A : Type} (w : nat) (rows : list (list A)) :
  Forall (fun row => length row = w) rows -> length (concat rows) = (length rows * w)%nat.
Proof.
  induction 1 as [| row rows Hrow _ IH]; [reflexivity |].
  cbn [concat length]. rewrite length_app, IH, Hrow. lia.
Qed.

(** X8: reshaping a tensor of shape (n, m, k) to (n, m*k) turns every
    matrix of the batch into one row, its rows laid end to end; any target
    shape with another number of entries raises. *)
Theorem reshape3_to_2_rows {A : Type} (T : tensor3 A) (n m k : nat) :
  has_shape3 n m k T ->
  reshape3_to_2 T n (m * k) = Ok (map (@concat A) T)
  /\ forall n' w, (n' * w)%nat <> (n * m * k)%nat ->
                  reshape3_to_2 T n' w = Raise RuntimeError.
Proof.
  intros [Hn HT].
  assert (Hrows : Forall (fun row => length row = (m * k)%nat) (map (@concat A) T)).
  { apply Forall_fmap. eapply Forall_impl; [| exact HT].
    intros M [Hm HM]. unfold compose. rewrite (length_concat_uniform k M HM), Hm. reflexivity. }
  assert (Hflat : length (flatten3 T) = (n * (m * k))%nat).
  { unfold flatten3. rewrite concat_concat_map, (length_concat_uniform (m * k) _ Hrows).
    rewrite length_map, Hn. reflexivity. }
  split.
  - unfold reshape3_to_2, reshape2. rewrite Hflat, Nat.eqb_refl. f_equal.
    unfold flatten3. rewrite concat_concat_map.
    rewrite <- Hn, <- (length_map (@concat A) T). apply chunks_concat_rows. exact Hrows.
  - intros n' w Hne. unfold reshape3_to_2, reshape2. rewrite Hflat.
    replace (n * (m * k) =? n' * w)%nat with false; [reflexivity |].
    symmetry. apply Nat.eqb_neq. lia.
Qed.

(** *** Equidistant grids *)

(** X9: [torch.linspace(start, stop, steps)] with at least two steps has
    [steps] points, starts at [start], ends at [stop], has the constant
    spacing [(stop - start) / (steps - 1)], and for [start <= stop] stays
    inside [[start, stop]]. *)
Theorem linspace_grid (start stop : Q) (steps : nat) :
  (2 <= steps)%nat ->
  length (linspace start stop steps) = steps
  /\ (exists a, linspace start stop steps !! 0%nat = Some a /\ (a == start)%Q)
  /\ (exists b, linspace start stop steps !! (steps - 1)%nat = Some b /\ (b == stop)%Q)
  /\ (forall i x y, linspace start stop steps !! i = Some x ->
                    linspace start stop steps !! S i = Some y ->
                    (y - x == (stop - start) / inject_Z (Z.of_nat (steps - 1)))%Q)
  /\ ((start <= stop)%Q ->
      forall i x, linspace start stop steps !! i = Some x -> (start <= x <= stop)%Q).
Proof.
  intros Hsteps.
  assert (Hpos : (0 < inject_Z (Z.of_nat (steps - 1)))%Q).
  { change 0%Q with (inject_Z 0). rewrite <- Zlt_Qlt. lia. }
  assert (Hnz : ~ (inject_Z (Z.of_nat (steps - 1)) == 0)%Q) by lra.
  split; [apply length_linspace |]. split; [| split; [| split]].
  - eexists. split; [apply linspace_lookup; lia |]. simpl inject_Z. field. exact Hnz.
  - eexists. split; [apply linspace_lookup; lia |]. field. exact Hnz.
  - intros i x y Hx Hy.
    assert (Hi : (S i < steps)%nat).
    { apply lookup_lt_Some in Hy. rewrite length_linspace in Hy. exact Hy. }
    rewrite linspace_lookup in Hx by lia. rewrite linspace_lookup in Hy by lia.
    inversion Hx; subst x. inversion Hy; subst y.
    rewrite Nat2Z.inj_succ. unfold Z.succ. rewrite inject_Z_plus. field. exact Hnz.
  - intros Hle i x Hx.
    assert (Hi : (i < steps)%nat).
    { apply lookup_lt_Some in Hx. rewrite length_linspace in Hx. exact Hx. }
    rewrite linspace_lookup in Hx by lia. inversion Hx; subst x; clear Hx.
    assert (H0 : (0 <= inject_Z (Z.of_nat i))%Q).
    { change 0%Q with (inject_Z 0). rewrite <- Zle_Qle. lia. }
    assert (H1 : (inject_Z (Z.of_nat i) <= inject_Z (Z.of_nat (steps - 1)))%Q).
    { rewrite <- Zle_Qle. lia. }
    set (z := inject_Z (Z.of_nat i)) in *. set (N := inject_Z (Z.of_nat (steps - 1))) in *.
    clearbody z N.
    assert (Hfrac : (0 <= z / N <= 1)%Q).
    { split.
      - apply Qle_shift_div_l; [exact Hpos | lra].
      - apply Qle_shift_div_r; [exact Hpos | lra]. }
    assert (E : (start + z * ((stop - start) / N) == start + (z / N) * (stop - start))%Q)
      by (field; exact Hnz).
    rewrite E. set (r := (z / N)%Q) in *. clearbody r.
    assert (Hprod : (0 <= r * (stop - start))%Q) by (apply Qmult_le_0_compat; lra).
    assert (Hprod' : (0 <= (1 - r) * (stop - start))%Q) by (apply Qmult_le_0_compat; lra).
    split; lra.
Qed.

(** The cells of the primer give the tensors the notebook prints. *)
Example primer_slices_values :
  (exists T, primer_top_left_2 = Ok T
     /\ Qeq3 T [[[2; 2]; [0; 0]]; [[2; 0]; [0; 0]]; [[2; 0]; [5; 0]]]%Q)
  /\ (exists T, primer_bottom_row_3 = Ok T
     /\ Qeq3 T [[[2; 2]; [3; 3]]; [[2; 0]; [3; 3]]; [[2; 0]; [3; 3]]]%Q)
  /\ (exists T, primer_top_left_plus_1 = Ok T
     /\ Qeq3 T [[[3; 2]; [3; 3]]; [[3; 0]; [3; 3]]; [[3; 0]; [3; 3]]]%Q)
  /\ (exists T, primer_top_right_values = Ok T
     /\ Qeq3 T [[[3; 1]; [3; 3]]; [[3; 2]; [3; 3]]; [[3; 3]; [3; 3]]]%Q)
  /\ (exists T, primer_first_two_negated = Ok T
     /\ Qeq3 T [[[-3; -1]; [3; 3]]; [[-3; -2]; [3; 3]]; [[3; 3]; [3; 3]]]%Q).
Proof.
  repeat split; (eexists; split; [vm_compute; reflexivity |]);
    repeat constructor.
Qed.

Example primer_mask_and_reshape :
  (T ← test_tensor_after_writes; mask_select [true; false; true] T)
    = Ok [[[1.0; 2.0]; [0; 0]]; [[0; 0]; [5.0; 0]]]%Q
  /\ reshape2_to_1 [[1; 2]; [0; 5]]%Q 4 = Ok [1; 2; 0; 5]%Q
  /\ (exists M, (T ← primer_first_two_negated; reshape3_to_2 T 3 4) = Ok M
       /\ Qeq2 M [[-3; -1; 3; 3]; [-3; -2; 3; 3]; [3; 3; 3; 3]]%Q)
  /\ (exists T, getitem test_tensor 0 = Ok T /\ slice_upto test_tensor 1 = [T]).
Proof.
  split; [reflexivity |]. split; [reflexivity |]. split.
  - eexists. split; [vm_compute; reflexivity |]. repeat constructor.
  - eexists. split; reflexivity.
Qed.

(** At the edges: the empty list selects nothing, a mask that is too short
    raises, and an index out of range is reported before a wrong number of
    values is. *)
Example primer_edge_cases :
  mask_select [] test_tensor = Ok []
  /\ mask_select [true; false] test_tensor = Raise IndexError
  /\ assign_values [1; 2]%Q test_tensor 0 5 = Raise IndexError
  /\ assign_values [1; 2]%Q test_tensor 0 1 = Raise RuntimeError.
Proof. repeat split. Qed.

Lemma setitem3_read_back_witness :
  getitem3 test_tensor 2 1 0 = Ok 0%Q
  /\ exists T', setitem3 test_tensor 2 1 0 5%Q = Ok T'
       /\ getitem3 T' 2 1 0 = Ok 5%Q
       /\ forall n m l, has_shape3 n m l test_tensor -> has_shape3 n m l T'.
Proof.
  split; [reflexivity |].
  apply (setitem3_read_back test_tensor 2 1 0 5%Q 0%Q). reflexivity.
Defined.

Lemma setitem3_raises_like_getitem3_witness :
  getitem3 test_tensor 3 0 0 = Raise IndexError
  /\ setitem3 test_tensor 3 0 0 5%Q = Raise IndexError /\ IndexError = IndexError.
Proof.
  split; [reflexivity |].
  apply (setitem3_raises_like_getitem3 test_tensor 3 0 0 5%Q IndexError). reflexivity.
Defined.

Lemma setitem3_frame_witness :
  setitem3 test_tensor 0 0 1 2%Q = Ok [[[0; 2]; [0; 0]]; [[0; 0]; [0; 0]]; [[0; 0]; [0; 0]]]%Q
  /\ exists pi pj pk,
       lookup3 [[[0; 2]; [0; 0]]; [[0; 0]; [0; 0]]; [[0; 0]; [0; 0]]]%Q pi pj pk = Some 2%Q
       /\ forall p q r, (p, q, r) <> (pi, pj, pk) ->
            lookup3 [[[0; 2]; [0; 0]]; [[0; 0]; [0; 0]]; [[0; 0]; [0; 0]]]%Q p q r
            = lookup3 test_tensor p q r.
Proof.
  split; [reflexivity |].
  apply (setitem3_frame test_tensor _ 0 0 1 2%Q). reflexivity.
Defined.

Lemma update_slice_spec_witness :
  has_shape3 3 2 2 test_tensor /\ (0 < 3)%nat /\ (0 < 2)%nat
  /\ (index_valid 3 (Upto 2) /\ index_valid 2 (At (-1)) /\ index_valid 2 All ->
      exists T', update_slice (fun _ x => (x + 1)%Q) test_tensor (Upto 2) (At (-1)) All = Ok T'
        /\ has_shape3 3 2 2 T'
        /\ forall i j l x, lookup3 test_tensor i j l = Some x ->
             (addressed 3 (Upto 2) i /\ addressed 2 (At (-1)) j /\ addressed 2 All l ->
              lookup3 T' i j l = Some (x + 1)%Q)
             /\ (~ (addressed 3 (Upto 2) i /\ addressed 2 (At (-1)) j /\ addressed 2 All l) ->
                 lookup3 T' i j l = Some x))
  /\ (~ (index_valid 3 (Upto 2) /\ index_valid 2 (At (-1)) /\ index_valid 2 All) ->
      update_slice (fun _ x => (x + 1)%Q) test_tensor (Upto 2) (At (-1)) All
      = Raise IndexError).
Proof.
  split; [exact test_tensor_shape |]. split; [lia |]. split; [lia |].
  apply (update_slice_spec (fun _ x => (x + 1)%Q) test_tensor (Upto 2) (At (-1)) All 3 2 2);
    [exact test_tensor_shape | lia | lia].
Defined.

Lemma imul_slice_inverse_witness :
  has_shape3 3 2 2 test_tensor /\ (0 < 3)%nat /\ (0 < 2)%nat
  /\ index_check 3 (Upto 2) = Ok tt /\ index_check 2 (At 0) = Ok tt
  /\ index_check 2 All = Ok tt /\ (-1 * -1 == 1)%Q
  /\ exists T1 T2,
       imul_slice (-1) test_tensor (Upto 2) (At 0) All = Ok T1
       /\ imul_slice (-1) T1 (Upto 2) (At 0) All = Ok T2
       /\ Qeq3 T2 test_tensor.
Proof.
  split; [exact test_tensor_shape |]. split; [lia |]. split; [lia |].
  do 4 (split; [reflexivity |]).
  apply (imul_slice_inverse (-1) (-1) test_tensor (Upto 2) (At 0) All 3 2 2);
    [exact test_tensor_shape | lia | lia | reflexivity ..].
Defined.

Lemma reshape3_to_2_rows_witness :
  has_shape3 3 2 2 test_tensor
  /\ reshape3_to_2 test_tensor 3 (2 * 2) = Ok (map (@concat Q) test_tensor)
  /\ forall n' w, (n' * w)%nat <> (3 * 2 * 2)%nat ->
                  reshape3_to_2 test_tensor n' w = Raise RuntimeError.
Proof.
  split; [exact test_tensor_shape |].
  apply (reshape3_to_2_rows test_tensor 3 2 2). exact test_tensor_shape.
Defined.

Lemma linspace_grid_witness :
  (2 <= 3)%nat
  /\ length (linspace 1 3 3) = 3%nat
  /\ (exists a, linspace 1 3 3 !! 0%nat = Some a /\ (a == 1)%Q)
  /\ (exists b, linspace 1 3 3 !! (3 - 1)%nat = Some b /\ (b == 3)%Q)
  /\ (forall i x y, linspace 1 3 3 !! i = Some x ->
                    linspace 1 3 3 !! S i = Some y ->
                    (y - x == (3 - 1) / inject_Z (Z.of_nat (3 - 1)))%Q)
  /\ ((1 <= 3)%Q ->
      forall i x, linspace 1 3 3 !! i = Some x -> (1 <= x <= 3)%Q).
Proof.
  split; [lia |]. apply (linspace_grid 1 3 3). lia.
Defined.

(** *** When the losses vanish *)

Lemma Qsquare_nonneg (x : Q) : (0 <= x * x)%Q.
Proof.
  destruct (Qlt_le_dec x 0) as [Hneg | Hpos].
  - apply Qle_trans with ((- x) * (- x))%Q.
    + apply Qmult_le_0_compat; lra.
    + apply Qle_lteq. right. ring.
  - apply Qmult_le_0_compat; exact Hpos.
Qed.

Lemma Qsquare_zero (x : Q) : (x * x == 0)%Q -> (x == 0)%Q.
Proof.
  intros H. destruct (Qeq_dec x 0) as [Hz | Hnz]; [exact Hz |].
  exfalso. apply Hnz. apply Qmult_integral in H. destruct H; assumption.
Qed.

Lemma Qsum_squares_zero (a b : tensor1 Q) :
  length a = length b ->
  ((Qsum (zip_with (fun x y => (x - y) * (x - y))%Q a b) == 0)%Q <-> Forall2 Qeq a b).
Proof.
  revert b. induction a as [| x a IH]; intros [| y b] Hlen; try discriminate.
  - split; [constructor | reflexivity].
  - injection Hlen as Hlen. specialize (IH b Hlen).
    pose proof (Qsum_squares_nonneg a b) as Hrest.
    pose proof (Qsquare_nonneg (x - y)) as Hsq.
    unfold Qsum in *. cbn [zip_with fold_right]. split.
    + intros H.
      assert (H1 : ((x - y) * (x - y) == 0)%Q) by lra.
      assert (H2 : (fold_right Qplus 0 (zip_with (fun x y => (x - y) * (x - y)) a b) == 0)%Q)
        by lra.
      constructor; [apply Qsquare_zero in H1; lra | apply IH; exact H2].
    + intros H. inversion H as [| ? ? ? ? Hxy Hab]; subst.
      apply IH in Hab. rewrite Hab, Hxy. ring.
Qed.

Lemma MSELoss_zero (a b : tensor1 Q) :
  length a = length b ->
  exists l, MSELoss a b = Ok l /\ (0 <= l)%Q /\ ((l == 0)%Q <-> Forall2 Qeq a b).
Proof.
  intros Hlen. rewrite (MSELoss_same_length a b Hlen). eexists. split; [reflexivity |].
  split; [apply (MSELoss_nonneg a b); apply MSELoss_same_length; exact Hlen |].
  rewrite <- (Qsum_squares_zero a b Hlen).
  destruct a as [| x a].
  - destruct b; [| discriminate]. simpl. split; reflexivity.
  - assert (Hpos : (0 < inject_Z (Z.of_nat (length (x :: a))))%Q).
    { change 0%Q with (inject_Z 0). rewrite <- Zlt_Qlt. simpl length. lia. }
    set (N := inject_Z (Z.of_nat (length (x :: a)))) in *.
    set (Sm := Qsum (zip_with (fun x y => (x - y) * (x - y))%Q (x :: a) b)) in *.
    clearbody N Sm. split.
    + intros H. assert (E : (Sm == Sm / N * N)%Q) by (field; lra). rewrite E, H. ring.
    + intros H. rewrite H. field. lra.
Qed.

(** X12: the mean-squared-error loss of two non-empty tensors with the
    same number of entries is never negative and is zero exactly when the
    tensors agree entry by entry.  (Two empty tensors are left out: the
    library returns [nan] for them.) *)
Theorem MSELoss_zero_iff (a b : tensor1 Q) :
  a <> [] -> length a = length b ->
  exists l, MSELoss a b = Ok l /\ (0 <= l)%Q /\ ((l == 0)%Q <-> Forall2 Qeq a b).
Proof. intros _. apply MSELoss_zero. Qed.

(** X13: the total loss of the physics-informed loop is never negative and
    is zero exactly when the network satisfies the governing equation at
    every point of the time grid and both initial conditions. *)
Theorem total_loss_zero_iff (d : derivatives) (x0 v0 : Q) :
  length (u_tt d) = length (u_t d) -> u_zero d = [x0] -> u_t_zero d = [v0] ->
  exists l, total_loss d = Ok l
    /\ (0 <= l)%Q
    /\ ((l == 0)%Q <->
        Forall2 (fun a v => ode_residual a v == 0)%Q (u_tt d) (u_t d)
        /\ (x0 == Params.H)%Q /\ (v0 == 0)%Q).
Proof.
  intros Hlen Hz Hvz.
  destruct (MSELoss_zero (u_tt d)
              (map (fun v => Params.D * (v * v) - Params.g)%Q (u_t d)))
    as (l1 & H1 & Hn1 & Hz1); [rewrite length_map; exact Hlen |].
  destruct (MSELoss_zero [x0] [Params.H] eq_refl) as (l2 & H2 & Hn2 & Hz2).
  destruct (MSELoss_zero [v0] [0%Q] eq_refl) as (l3 & H3 & Hn3 & Hz3).
  exists (l1 + l2 + l3)%Q. split.
  { unfold total_loss, loss_ode, loss_initial_position, loss_initial_speed.
    rewrite H1, Hz, H2, Hvz, H3. reflexivity. }
  split; [lra |].
  assert (Hode : Forall2 Qeq (u_tt d) (map (fun v => Params.D * (v * v) - Params.g)%Q (u_t d))
                 <-> Forall2 (fun a v => ode_residual a v == 0)%Q (u_tt d) (u_t d)).
  { rewrite Forall2_fmap_r. split; intros H; eapply Forall2_impl; try exact H;
      intros a v Hav; unfold ode_residual in *; simpl in *; lra. }
  split.
  - intros H. assert (E1 : (l1 == 0)%Q) by lra. assert (E2 : (l2 == 0)%Q) by lra.
    assert (E3 : (l3 == 0)%Q) by lra.
    apply Hz1, Hode in E1. apply Hz2 in E2. apply Hz3 in E3.
    inversion E2; subst. inversion E3; subst. auto.
  - intros (Ho & Hx & Hv).
    assert (E1 : (l1 == 0)%Q) by (apply Hz1, Hode; exact Ho).
    assert (E2 : (l2 == 0)%Q) by (apply Hz2; repeat constructor; exact Hx).
    assert (E3 : (l3 == 0)%Q) by (apply Hz3; repeat constructor; exact Hv).
    lra.
Qed.

(** *** What the loops print, and when they stop early *)

Lemma for_each_logged {St : Type} (keys : St -> list nat) (c : nat -> bool)
    (body : nat -> St -> result St) (ks : list nat) (s : St) :
  (forall k s, exists s', body k s = Ok s'
                          /\ keys s' = if c k then keys s ++ [k] else keys s) ->
  exists s', for_each body ks s = Ok s' /\ keys s' = keys s ++ List.filter c ks.
Proof.
  intros Hbody. revert s. induction ks as [| k ks IH]; intros s.
  - exists s. split; [reflexivity |]. simpl. rewrite app_nil_r. reflexivity.
  - destruct (Hbody k s) as (s1 & Hs1 & Hk1).
    destruct (IH s1) as (s' & Hs' & Hk').
    exists s'. split.
    + cbn [for_each]. rewrite (bind_Ok _ _ _ Hs1). exact Hs'.
    + rewrite Hk', Hk1. cbn [List.filter]. destruct (c k); [| reflexivity].
      rewrite <- app_assoc. reflexivity.
Qed.

(** X14: when nothing raises, the data-driven loop prints exactly at the
    iterations with [t == 0 or t % 250 == 249] and the physics-informed
    loop exactly at those with [k % 250 == 0 or k == train_iterations - 1],
    each in increasing order and after whatever was printed before. *)
Theorem training_logs
    (P : Type) (forward : P -> result (tensor1 Q)) (loss_of : tensor1 Q -> result Q)
    (optimize : P -> result P) (differentiate : P -> result derivatives)
    (s : train_state P) :
  (forall th, exists o, forward th = Ok o) ->
  (forall o, exists l, loss_of o = Ok l) ->
  (forall th, exists th', optimize th = Ok th') ->
  (forall th, exists d l, differentiate th = Ok d /\ total_loss d = Ok l) ->
  (exists s1, data_driven_loop P forward loss_of optimize s = Ok s1
              /\ map fst (printed s1)
                 = map fst (printed s)
                   ++ List.filter data_driven_prints (seq 0 Params.train_iterations))
  /\ (exists s2, physics_loop P optimize differentiate s = Ok s2
              /\ map fst (printed s2)
                 = map fst (printed s)
                   ++ List.filter physics_prints (seq 0 Params.train_iterations)).
Proof.
  intros Hf Hl Ho Hd. split.
  - apply (for_each_logged (fun s => map fst (printed s)) data_driven_prints).
    intros k s0. unfold data_driven_body.
    destruct (Hf (theta s0)) as [o ->]. destruct (Hl o) as [l Hlo].
    destruct (Ho (theta s0)) as [th' ->]. cbn [mbind result_bind bind]. rewrite Hlo. cbn [mbind result_bind bind].
    eexists. split; [reflexivity |]. cbn [printed]. unfold data_driven_prints.
    destruct ((k =? 0)%nat || (k mod 250 =? 249)%nat); [| reflexivity].
    rewrite map_app. reflexivity.
  - apply (for_each_logged (fun s => map fst (printed s)) physics_prints).
    intros k s0. unfold physics_body.
    destruct (Hd (theta s0)) as (d & l & -> & Hlo).
    destruct (Ho (theta s0)) as [th' ->]. cbn [mbind result_bind bind]. rewrite Hlo. cbn [mbind result_bind bind].
    eexists. split; [reflexivity |]. cbn [printed]. unfold physics_prints.
    destruct ((k mod 250 =? 0)%nat || (k =? Params.train_iterations - 1)%nat);
      [| reflexivity].
    rewrite map_app. reflexivity.
Qed.

(** X15: no retry and no failure handling: when the body raises in
    iteration [k < n] after [k] good iterations, the whole loop ends with
    that exception. *)
Theorem loop_aborts_on_exception {St : Type} (body : nat -> St -> result St)
    (n k : nat) (s sk : St) (e : exn) :
  (k < n)%nat ->
  for_range k body s = Ok sk ->
  body k sk = Raise e ->
  for_range n body s = Raise e.
Proof.
  intros Hk Hpre Hraise. unfold for_range in *.
  replace (seq 0 n) with (seq 0 k ++ k :: seq (S k) (n - S k)).
  - eapply for_each_raise; eassumption.
  - change (k :: seq (S k) (n - S k)) with (seq k (S (n - S k))).
    rewrite <- seq_app. f_equal. lia.
Qed.

Lemma MSELoss_zero_iff_witness :
  [1; 2]%Q <> [] /\ length [1; 2]%Q = length [1; 2]%Q
  /\ exists l, MSELoss [1; 2]%Q [1; 2]%Q = Ok l /\ (0 <= l)%Q
       /\ ((l == 0)%Q <-> Forall2 Qeq [1; 2]%Q [1; 2]%Q).
Proof.
  split; [discriminate |]. split; [reflexivity |].
  apply (MSELoss_zero_iff [1; 2]%Q [1; 2]%Q); [discriminate | reflexivity].
Defined.

Lemma total_loss_zero_iff_witness :
  length (u_tt sample_derivatives) = length (u_t sample_derivatives)
  /\ u_zero sample_derivatives = [49%Q] /\ u_t_zero sample_derivatives = [1%Q]
  /\ exists l, total_loss sample_derivatives = Ok l
    /\ (0 <= l)%Q
    /\ ((l == 0)%Q <->
        Forall2 (fun a v => ode_residual a v == 0)%Q
                (u_tt sample_derivatives) (u_t sample_derivatives)
        /\ (49 == Params.H)%Q /\ (1 == 0)%Q).
Proof.
  do 3 (split; [reflexivity |]).
  apply (total_loss_zero_iff sample_derivatives 49 1); reflexivity.
Defined.

Lemma training_logs_witness :
  (exists s1, data_driven_loop Q sample_forward sample_loss_of sample_optimize
                sample_state = Ok s1
              /\ map fst (printed s1)
                 = map fst (printed sample_state)
                   ++ List.filter data_driven_prints (seq 0 Params.train_iterations))
  /\ (exists s2, physics_loop Q sample_optimize sample_differentiate sample_state = Ok s2
              /\ map fst (printed s2)
                 = map fst (printed sample_state)
                   ++ List.filter physics_prints (seq 0 Params.train_iterations)).
Proof.
  apply (training_logs Q sample_forward sample_loss_of sample_optimize
           sample_differentiate sample_state).
  - intros th. eexists. reflexivity.
  - intros o. eexists. reflexivity.
  - intros th. eexists. reflexivity.
  - intros th. do 2 eexists. split; reflexivity.
Defined.

Lemma loop_aborts_on_exception_witness :
  (3 < 10)%nat
  /\ for_range 3 sample_failing_body 0%nat = Ok 3%nat
  /\ sample_failing_body 3 3 = Raise RuntimeError
  /\ for_range 10 sample_failing_body 0%nat = Raise RuntimeError.
Proof.
  split; [lia |]. split; [reflexivity |]. split; [reflexivity |].
  apply (loop_aborts_on_exception sample_failing_body 10 3 0%nat 3%nat RuntimeError);
    [lia | reflexivity | reflexivity].
Defined.

(** *** The conditions of the parameterized notebook *)

Section Residuals.
Local Open Scope R_scope.

Lemma exact_solution_derivative k x :
  derivable_pt_lim (exact_solution k) x (k * exact_solution k x).
Proof. apply dl_exp_lin. Qed.

(** X16: the reference of the error plot, [e^(k*x)], has a zero residual
    in both training conditions (the equation [u' = k*u] and [u(0) = 1]),
    and it is the only differentiable function on [0, 1] with that
    property: a model with zero residuals everywhere has zero error. *)
Theorem zero_residuals_exact_solution (k : R) :
  (forall x, pde_residual (k * exact_solution k x) (exact_solution k x) k = 0
             /\ derivable_pt_lim (exact_solution k) x (k * exact_solution k x))
  /\ boundary_residual (exact_solution k 0) = 0
  /\ forall u u_x : R -> R,
       (forall x, 0 <= x <= 1 -> derivable_pt_lim u x (u_x x)) ->
       (forall x, 0 <= x <= 1 -> pde_residual (u_x x) (u x) k = 0) ->
       boundary_residual (u 0) = 0 ->
       forall x, 0 <= x <= 1 -> u x = exact_solution k x.
Proof.
  split; [| split].
  - intros x. split; [unfold pde_residual; ring | apply exact_solution_derivative].
  - unfold boundary_residual, exact_solution. replace (k * 0) with 0 by ring.
    rewrite exp_0. lra.
  - intros u u_x Hder Hpde Hbc x Hx.
    set (w := (u * (fun c => exp (- k * c)))%F).
    set (w' := fun c => u_x c * exp (- k * c) + u c * (- k * exp (- k * c))).
    assert (Hw : forall c, 0 <= c <= 1 -> derivable_pt_lim w c (w' c)).
    { intros c Hc.
      exact (derivable_pt_lim_mult u (fun c => exp (- k * c)) c _ _
               (Hder c Hc) (dl_exp_lin (- k) c)). }
    assert (Hw0 : forall c, 0 <= c <= 1 -> w' c = 0).
    { intros c Hc. specialize (Hpde c Hc). unfold pde_residual in Hpde. unfold w'.
      replace (u_x c) with (k * u c) by lra. ring. }
    assert (Hu0 : u 0 = 1) by (unfold boundary_residual in Hbc; lra).
    assert (Hwx : w x = 1).
    { destruct (Req_dec x 0) as [-> | Hne].
      - unfold w, mult_fct. rewrite Hu0. replace (- k * 0) with 0 by ring.
        rewrite exp_0. ring.
      - destruct (MVT_cor2 w w' 0 x) as (c & Hc & Hin); [lra | |].
        + intros c Hc. apply Hw. lra.
        + rewrite Hw0 in Hc by lra. unfold w, mult_fct in Hc.
          replace (- k * 0) with 0 in Hc by ring. rewrite exp_0, Hu0 in Hc.
          unfold w, mult_fct. lra. }
    unfold w, mult_fct in Hwx. unfold exact_solution.
    assert (He : exp (- k * x) * exp (k * x) = 1).
    { rewrite <- exp_plus. replace (- k * x + k * x) with 0 by ring. apply exp_0. }
    pose proof (exp_pos (- k * x)) as Hpos.
    apply Rmult_eq_reg_r with (exp (- k * x)); [| lra]. rewrite Hwx. lra.
Qed.
End Residuals.

(** *** What a zero error means *)

Section ErrorPlot.
Variable model : R -> R -> R.
Variable plot_points : nat -> list R.

(** X17: every entry of [error_tensor] is non-negative, and the entry of a
    parameter value is zero exactly when the model equals [e^(k*x)] at
    every plot point for that value. *)
Theorem error_tensor_zero_iff_exact :
  (forall i, (i < 50)%nat -> plot_points i <> []) ->
  exists et,
    error_tensor model plot_points = Ok et
    /\ forall i e q, et !! i = Some e -> k_tensor !! i = Some q ->
         (0 <= e)%R
         /\ (e = 0%R <->
             forall x, In x (plot_points i) -> model x (Q2R q) = exp (Q2R q * x)).
Proof.
  intros Hpts. destruct (error_tensor_entries model plot_points Hpts) as (et & Hrun & Hlen & Hent).
  exists et. split; [exact Hrun |]. intros i e q He Hq.
  assert (Hi : (i < 50)%nat) by (apply lookup_lt_Some in He; lia).
  destruct (Hent i Hi) as (e' & Hmax & He').
  assert (Heq' : e' = e) by congruence. rewrite Heq' in Hmax. clear Heq' He'.
  destruct (max_error_spec model plot_points i q Hq (Hpts i Hi))
    as (e2 & Hmax2 & (x0 & Hx0 & Hatt) & Hub).
  assert (Heq2 : e2 = e) by congruence. rewrite Heq2 in Hatt, Hub. clear Heq2 Hmax2.
  split.
  - rewrite Hatt. apply Rabs_pos.
  - split.
    + intros Hz x Hx. specialize (Hub x Hx). rewrite Hz in Hub.
      pose proof (Rabs_pos (model x (Q2R q) - exp (Q2R q * x))) as Hp.
      assert (Habs : Rabs (model x (Q2R q) - exp (Q2R q * x)) = 0%R) by lra.
      destruct (Req_dec (model x (Q2R q) - exp (Q2R q * x)) 0) as [Hd | Hd]; [lra |].
      apply Rabs_no_R0 in Hd. contradiction.
    + intros Hall. rewrite Hatt, (Hall x0 Hx0).
      replace (exp (Q2R q * x0) - exp (Q2R q * x0))%R with 0%R by ring. apply Rabs_R0.
Qed.
End ErrorPlot.

(** X18: when some test target is positive, the number the data-driven
    accuracy check reports is non-negative, and it is zero exactly when the
    model output equals the target at every test point. *)
Theorem relative_error_zero_iff_exact (model_out output_testing : tensor3 Q)
    (i0 j0 l0 : nat) (y0 : Q) :
  same_shape3 model_out output_testing = true ->
  lookup3 output_testing i0 j0 l0 = Some y0 -> (0 < y0)%Q ->
  exists r, relative_error model_out output_testing = Ok r
    /\ (0 <= r)%Q
    /\ ((r == 0)%Q <->
        forall i j l x y, lookup3 model_out i j l = Some x ->
                          lookup3 output_testing i j l = Some y -> (x == y)%Q).
Proof.
  intros Hshape Hy0 Hpos.
  assert (Hne : flatten3 output_testing <> []).
  { intros Hnil. assert (Hin : In y0 (flatten3 output_testing))
      by (apply In_flatten3; eauto). rewrite Hnil in Hin. destruct Hin. }
  destruct (torch_max_spec _ Hne) as (o_max & Ho & Hoin & Houb).
  assert (Hopos : (0 < o_max)%Q).
  { eapply Qlt_le_trans; [exact Hpos |]. apply Houb, In_flatten3. eauto. }
  destruct (same_shape3_lookup _ _ _ _ _ _ Hshape Hy0) as [x0 Hx0].
  set (error := zip_with (zip_with (zip_with (fun x y => Qabs (x - y)))) model_out output_testing).
  assert (Herr : abs_error model_out output_testing = Ok error).
  { unfold abs_error, elementwise3. rewrite Hshape. reflexivity. }
  assert (Hene : flatten3 error <> []).
  { intros Hnil. assert (Hin : In (Qabs (x0 - y0)) (flatten3 error)).
    { apply In_flatten3. exists i0, j0, l0. unfold error.
      rewrite lookup3_zip_with, Hx0, Hy0. reflexivity. }
    rewrite Hnil in Hin. destruct Hin. }
  destruct (torch_max_spec _ Hene) as (e_max & He & Hein & Heub).
  assert (Henn : (0 <= e_max)%Q).
  { eapply Qle_trans; [apply (Qabs_nonneg (x0 - y0)) |]. apply Heub, In_flatten3.
    exists i0, j0, l0. unfold error. rewrite lookup3_zip_with, Hx0, Hy0. reflexivity. }
  exists (e_max / o_max)%Q. split; [| split].
  - unfold relative_error. rewrite Herr. cbn [mbind result_bind bind].
    rewrite He. cbn [mbind result_bind bind]. rewrite Ho. reflexivity.
  - apply Qle_shift_div_l; [exact Hopos | lra].
  - assert (Hr : (e_max / o_max == 0 <-> e_max == 0)%Q).
    { split; intros H.
      - assert (E : (e_max == e_max / o_max * o_max)%Q) by (field; lra). rewrite E, H. ring.
      - rewrite H. field. lra. }
    rewrite Hr. split.
    + intros Hz i j l x y Hx Hy.
      assert (Hle : (Qabs (x - y) <= e_max)%Q).
      { apply Heub, In_flatten3. exists i, j, l. unfold error.
        rewrite lookup3_zip_with, Hx, Hy. reflexivity. }
      rewrite Hz in Hle. apply Qabs_Qle_condition in Hle. lra.
    + intros Hall. apply In_flatten3 in Hein as (i & j & l & Hl).
      unfold error in Hl. rewrite lookup3_zip_with in Hl.
      destruct (lookup3 model_out i j l) as [x |] eqn:Hx; [| discriminate].
      destruct (lookup3 output_testing i j l) as [y |] eqn:Hy; [| discriminate].
      assert (Hem : e_max = Qabs (x - y)) by (inversion Hl; reflexivity).
      rewrite Hem, (Hall i j l x y Hx Hy).
      assert (E : (y - y == 0)%Q) by ring. rewrite E. reflexivity.
Qed.

Lemma error_tensor_zero_iff_exact_witness :
  (forall i, (i < 50)%nat -> sample_plot_points i <> [])
  /\ exists et,
    error_tensor sample_param_model sample_plot_points = Ok et
    /\ forall i e q, et !! i = Some e -> k_tensor !! i = Some q ->
         (0 <= e)%R
         /\ (e = 0%R <->
             forall x, In x (sample_plot_points i) ->
                       sample_param_model x (Q2R q) = exp (Q2R q * x)).
Proof.
  assert (H : forall i, (i < 50)%nat -> sample_plot_points i <> []).
  { intros i _ Hnil. apply (f_equal length) in Hnil.
    unfold sample_plot_points in Hnil. rewrite length_map, length_linspace in Hnil.
    discriminate. }
  split; [exact H |].
  apply (error_tensor_zero_iff_exact sample_param_model sample_plot_points H).
Defined.

Lemma relative_error_zero_iff_exact_witness :
  same_shape3 sample_model_out sample_output_testing = true
  /\ lookup3 sample_output_testing 0 0 0 = Some 1%Q /\ (0 < 1)%Q
  /\ exists r, relative_error sample_model_out sample_output_testing = Ok r
    /\ (0 <= r)%Q
    /\ ((r == 0)%Q <->
        forall i j l x y, lookup3 sample_model_out i j l = Some x ->
                          lookup3 sample_output_testing i j l = Some y -> (x == y)%Q).
Proof.
  do 3 (split; [reflexivity |]).
  apply (relative_error_zero_iff_exact sample_model_out sample_output_testing 0 0 0 1%Q);
    reflexivity.
Defined.

(** *** The commit-message hook *)

Module CommitHookFacts.
Import CommitHook String.StringSyntax.
Local Delimit Scope string_scope with string.


Lemma prefix_append (p s : String.string) : String.prefix p (String.append p s) = true.
Proof. induction p as [| c p IH]; simpl; [destruct s; reflexivity |].
  destruct (Ascii.ascii_dec c c); [exact IH | congruence]. Qed.

Lemma signoff_line_is_signoff id : is_signoff (signoff_line id) = true.
Proof. apply prefix_append. Qed.

Lemma signoff_line_not_comment id : is_comment (signoff_line id) = false.
Proof. reflexivity. Qed.




(** X10: for a message without shell-special text the hook leaves a file
    that holds a sign-off line, and running it again changes nothing: a
    message is never signed off twice. *)
Theorem hook_idempotent (id : identity) (ls : list String.string) :
  Forall (fun l => shell_plain l = true) ls ->
  shell_plain (user_name id) = true -> shell_plain (user_email id) = true ->
  existsb is_signoff (hook id ls) = true
  /\ hook id (hook id ls) = hook id ls.
Proof.
  intros _ _ _.
  assert (H : existsb is_signoff (hook id ls) = true).
  { unfold hook. destruct (existsb is_signoff ls) eqn:Hs; [exact Hs |].
    rewrite !existsb_app. unfold signoff_block. cbn [existsb].
    rewrite signoff_line_is_signoff. rewrite !orb_true_r. reflexivity. }
  split; [exact H |]. unfold hook at 1. rewrite H. reflexivity.
Qed.







Lemma hook_idempotent_witness :
  Forall (fun l => shell_plain l = true) sample_message
  /\ shell_plain (user_name sample_identity) = true
  /\ shell_plain (user_email sample_identity) = true
  /\ existsb is_signoff (hook sample_identity sample_message) = true
  /\ hook sample_identity (hook sample_identity sample_message)
     = hook sample_identity sample_message.
Proof.
  assert (H : Forall (fun l => shell_plain l = true) sample_message)
    by (repeat constructor).
  split; [exact H |]. split; [reflexivity |]. split; [reflexivity |].
  apply (hook_idempotent sample_identity sample_message H); reflexivity.
Defined.


Example hook_sample :
  hook sample_identity sample_message
  = ["Fix the time grid"%string; String.EmptyString;
     "Signed-off-by: Ada Lovelace <ada@example.org> "%string; String.EmptyString;
     "# Please enter the commit message"%string; "# On branch main"%string].
Proof. reflexivity. Qed.
End CommitHookFacts.
